(** * medagents-benchmark: result-table pipeline

    A shallow embedding of [output/make_table.py] (the filename decoder
    [parse_filename] and the method normalizer [parse_method]) and of
    [output/utils.py] (the record extractor: [deduplicate_data],
    [calculate_cost_from_token_usage], [calculate_time_from_data] and
    [get_score_from_file]), with the properties the specification states
    about them.

    Conventions.
    - Python [str] values are [string]s; every literal of the program is
      ASCII, and the string primitives used by the decoder are written out
      in [PyStr] with Python's behaviour.
    - JSON numbers are exact rationals ([Q]) or integers ([Z]); rounding
      of binary floating point is not modelled.
    - A Python exception is a value of [pyerr] carried by [result]. *)

From Stdlib Require Import QArith.
From stdpp Require Import gmap strings list sorting.

Local Open Scope string_scope.

(** ** Python string primitives *)

Module PyStr.

(** [s.startswith(prefix)] *)
Fixpoint startswith (s prefix : string) : bool :=
  match prefix, s with
  | EmptyString, _ => true
  | String _ _, EmptyString => false
  | String a prefix', String b s' => Ascii.eqb a b && startswith s' prefix'
  end.

(** [s[n:]] *)
Fixpoint drop (n : nat) (s : string) : string :=
  match n, s with
  | O, _ => s
  | S _, EmptyString => EmptyString
  | S n', String _ s' => drop n' s'
  end.

(** [c in chars], for a single character [c] *)
Fixpoint char_in (c : Ascii.ascii) (chars : string) : bool :=
  match chars with
  | EmptyString => false
  | String d chars' => Ascii.eqb c d || char_in c chars'
  end.

Definition is_empty (s : string) : bool :=
  match s with EmptyString => true | String _ _ => false end.

(** [s.lstrip(chars)]: [chars] is a set of characters. *)
Fixpoint lstrip (s chars : string) : string :=
  match s with
  | EmptyString => EmptyString
  | String c s' => if char_in c chars then lstrip s' chars else s
  end.

(** [s.rstrip(chars)] *)
Fixpoint rstrip (s chars : string) : string :=
  match s with
  | EmptyString => EmptyString
  | String c s' =>
      let r := rstrip s' chars in
      if is_empty r && char_in c chars then EmptyString else String c r
  end.

(** [s.strip(chars)] *)
Definition strip (s chars : string) : string := rstrip (lstrip s chars) chars.

(** [sub in s] *)
Fixpoint contains (s sub : string) : bool :=
  startswith s sub ||
  match s with
  | EmptyString => false
  | String _ s' => contains s' sub
  end.

(** [s.replace(old, new, 1)]: only the leftmost occurrence. *)
Fixpoint replace_first (s old new : string) : string :=
  if startswith s old then new ++ drop (String.length old) s
  else match s with
       | EmptyString => EmptyString
       | String c s' => String c (replace_first s' old new)
       end.

(** [s.replace(old, new)] for a non-empty [old]: occurrences are found
    left to right and do not overlap; [skip] counts the characters of
    the occurrence being replaced that are still to be passed over. *)
Fixpoint replace_from (skip : nat) (s old new : string) : string :=
  match s with
  | EmptyString => EmptyString
  | String c s' =>
      match skip with
      | S k => replace_from k s' old new
      | O =>
          if startswith s old
          then new ++ replace_from (Nat.pred (String.length old)) s' old new
          else String c (replace_from O s' old new)
      end
  end.

(** [s.replace("", new)] puts [new] before every character and at the
    end. *)
Fixpoint intersperse (s new : string) : string :=
  new ++ match s with
         | EmptyString => EmptyString
         | String c s' => String c (intersperse s' new)
         end.

Definition replace (s old new : string) : string :=
  if is_empty old then intersperse s new else replace_from O s old new.

(** [sorted(l, key=len, reverse=True)]: the sort is stable, also when
    reversed, so strings of equal length keep their order in [l]. *)
Fixpoint insert_by_len (x : string) (l : list string) : list string :=
  match l with
  | [] => [x]
  | y :: l' =>
      if (String.length x <? String.length y)%nat
      then y :: insert_by_len x l'
      else x :: l
  end.

Definition sorted_len_reverse (l : list string) : list string :=
  foldr insert_by_len [] l.

End PyStr.

(** ** [make_table.py] *)

Module MakeTable.
Import PyStr.

Definition model_prefixes : list string :=
  [ "DeepSeek-R1"; "DeepSeek-V3"; "Llama-3.3-70B-Instruct-Turbo";
    "QwQ-32B-Preview"; "QwQ-32B"; "claude-3-5-haiku"; "claude-3-5-sonnet";
    "gpt-35-turbo"; "gpt-4"; "gpt-4o"; "gpt-4o-mini"; "o1-mini"; "o3-mini" ].

Definition datasets : list string :=
  [ "medqa"; "medbullets"; "mmlu"; "pubmedqa"; "medexqa"; "medmcqa";
    "medxpertqa-r"; "medxpertqa-u"; "mmlu-pro" ].

Definition splits : list string := [ "test_hard"; "test" ].

(** The result of [parse_filename]: a 4-tuple whose fields are [None]
    or a string. *)
Definition parsed : Type :=
  (option string * option string * option string * option string)%type.

Definition undecodable : parsed := (None, None, None, None).

(** The first loop: the longest model name that is a prefix of the
    file name, and what follows it without leading dashes. *)
Definition model_stage (filename : string) : option (string * string) :=
  match find (fun prefix => startswith filename prefix)
             (sorted_len_reverse model_prefixes) with
  | Some prefix =>
      Some (prefix, lstrip (drop (String.length prefix) filename) "-")
  | None => None
  end.

(** The second loop: the first data set name, longest first, that
    occurs anywhere in [remaining]. *)
Definition dataset_stage (remaining : string) : option (string * string) :=
  match find (fun ds => contains remaining ds)
             (sorted_len_reverse datasets) with
  | Some ds => Some (ds, strip (replace_first remaining ds "") "-")
  | None => None
  end.

(** The third loop: [splits] is tried in the order it is written. *)
Definition split_stage (remaining : string) : option (string * string) :=
  match find (fun s => contains remaining s) splits with
  | Some s => Some (s, strip (replace_first remaining s "") "-")
  | None => None
  end.

(** [if not model], [if not dataset] and [if not split] hold when the
    loop left the variable at [None] and when it holds the empty
    string. *)
Definition parse_filename (filename : string) : parsed :=
  let filename := replace filename ".json" "" in
  match model_stage filename with
  | None => undecodable
  | Some (model, remaining) =>
      if is_empty model then undecodable else
      match dataset_stage remaining with
      | None => undecodable
      | Some (dataset, remaining) =>
          if is_empty dataset then undecodable else
          match split_stage remaining with
          | None => undecodable
          | Some (split, remaining) =>
              if is_empty split then undecodable else
              let method := if is_empty remaining then "zero_shot"
                            else remaining in
              (Some model, Some dataset, Some split, Some method)
          end
      end
  end.

Definition parse_method (method : string) : string :=
  if String.eqb method "zero_shot" then "Zero-shot"
  else if String.eqb method "cot_sc-5" then "CoT-SC"
  else if String.eqb method "aflow" then "AFlow"
  else if String.eqb method "mdagents" then "MDAgents"
  else if String.eqb method "few_shot" then "Few-shot"
  else if String.eqb method "medagents" then "MedAgents"
  else if String.eqb method "self_refine-3" then "Self-refine"
  else if String.eqb method "medprompt-3" then "MedPrompt"
  else if String.eqb method "multipersona-2" then "MultiPersona"
  else if String.eqb method "cot" then "CoT"
  else if String.eqb method "spo" then "SPO"
  else method.

(** [create_results_table] decodes the name of every file of the
    directory of [dataset] and goes on to the next file when
    [parsed_model not in model_names or parsed_dataset != dataset or
    parsed_split != split]. *)
Definition model_names : list string := [ "o3-mini"; "gpt-4o"; "gpt-4o-mini" ].

Definition skipped (p : parsed) (dataset : string) : bool :=
  let '(parsed_model, parsed_dataset, parsed_split, _) := p in
  negb (match parsed_model with
        | Some model => bool_decide (model ∈ model_names)
        | None => false
        end)
  || negb (bool_decide (parsed_dataset = Some dataset))
  || negb (bool_decide (parsed_split = Some "test_hard")).

(** The raw method tokens [parse_method] has a display name for. *)
Definition method_keys : list string :=
  [ "zero_shot"; "cot_sc-5"; "aflow"; "mdagents"; "few_shot"; "medagents";
    "self_refine-3"; "medprompt-3"; "multipersona-2"; "cot"; "spo" ].

End MakeTable.

(** ** [utils.py] *)

Module Utils.
Local Open Scope list_scope.

(** *** Data *)

(** A [realidx] is a JSON string or integer. *)
Inductive pykey : Type :=
| KInt (z : Z)
| KStr (s : string).

#[global] Instance pykey_eq_dec : EqDecision pykey.
Proof. solve_decision. Defined.

#[global] Instance pykey_countable : Countable pykey.
Proof.
  refine (inj_countable'
            (fun k => match k with KInt z => inl z | KStr s => inr s end)
            (fun x => match x with inl z => KInt z | inr s => KStr s end) _).
  intros []; reflexivity.
Defined.

(** The scalar values an answer field holds. *)
Inductive pyval : Type :=
| VNone
| VBool (b : bool)
| VInt (z : Z)
| VStr (s : string).

(** [bool(v)] *)
Definition truthy (v : pyval) : bool :=
  match v with
  | VNone => false
  | VBool b => b
  | VInt z => negb (z =? 0)%Z
  | VStr s => negb (PyStr.is_empty s)
  end.

(** [a == b]: [True] and [False] compare as the integers 1 and 0. *)
Definition py_eq (a b : pyval) : bool :=
  match a, b with
  | VNone, VNone => true
  | VBool x, VBool y => Bool.eqb x y
  | VBool x, VInt z | VInt z, VBool x => (z =? (if x then 1 else 0))%Z
  | VInt x, VInt y => (x =? y)%Z
  | VStr x, VStr y => String.eqb x y
  | _, _ => false
  end.

Record usage : Type := {
  prompt_tokens : Z;
  completion_tokens : Z
}.

(** One element of a result file.  [realidx], [predicted_answer] and
    [time_elapsed] are read unconditionally; the other keys may be
    missing. *)
Record record : Type := {
  realidx : pykey;
  answer_idx : option pyval;
  answer : option pyval;
  predicted_answer : pyval;
  time_elapsed : Q;
  cost : option Q;
  token_usage : option usage
}.

(** *** Exceptions *)

Inductive pyerr : Type :=
| KeyError (key : string)
| ZeroDivisionError.

Inductive result (A : Type) : Type :=
| Ok (a : A)
| Err (e : pyerr).
Arguments Ok {A} a.
Arguments Err {A} e.

Definition bind {A B : Type} (r : result A) (k : A -> result B) : result B :=
  match r with
  | Ok a => k a
  | Err e => Err e
  end.

Notation "'let*' x ':=' r 'in' k" := (bind r (fun x => k))
  (at level 10, x name, r at level 100, k at level 200).

(** [item[key]] for a key that may be missing. *)
Definition getitem {A : Type} (key : string) (field : option A) : result A :=
  match field with
  | Some a => Ok a
  | None => Err (KeyError key)
  end.

(** [len(data)] as a number. *)
Definition len {A : Type} (data : list A) : Q :=
  inject_Z (Z.of_nat (length data)).

(** [a / b]: Python raises on a zero divisor. *)
Definition truediv (a b : Q) : result Q :=
  if Qeq_bool b 0 then Err ZeroDivisionError else Ok (a / b)%Q.

(** *** [deduplicate_data] *)

(** One iteration of the loop, on the pair [(seen, deduplicated_data)]. *)
Definition dedup_step (st : gset pykey * list record) (item : record)
  : gset pykey * list record :=
  let idx := realidx item in
  if decide (idx ∈ st.1) then st
  else ({[ idx ]} ∪ st.1, st.2 ++ [item]).

Definition deduplicate_data (data : list record) : list record :=
  (foldl dedup_step (∅, []) data).2.

(** *** [calculate_cost_from_token_usage] *)

(** [total_cost += item['token_usage']['prompt_tokens'] * p_in / 1000000
                 + item['token_usage']['completion_tokens'] * p_out / 1000000] *)
Definition add_token_cost (total_cost : Q) (item : record) (p_in p_out : Q)
  : result Q :=
  let* u := getitem "token_usage" (token_usage item) in
  Ok (total_cost + (inject_Z (prompt_tokens u) * p_in / 1000000
                    + inject_Z (completion_tokens u) * p_out / 1000000))%Q.

(** The body of the loop: the [if]/[elif] chain, which has no [else]. *)
Definition cost_step (model : string) (total_cost : Q) (item : record)
  : result Q :=
  match cost item with
  | Some c => Ok (total_cost + c)%Q
  | None =>
      if String.eqb model "gpt-4o-mini" then
        add_token_cost total_cost item 0.15 0.6
      else if String.eqb model "gpt-4o" then
        add_token_cost total_cost item 2.5 10
      else if String.eqb model "o3-mini" || String.eqb model "o1-mini" then
        add_token_cost total_cost item 1.1 4.4
      else if String.eqb model "claude-3-5-sonnet" then
        add_token_cost total_cost item 3.0 15.0
      else if String.eqb model "claude-3-5-haiku" then
        add_token_cost total_cost item 0.8 4.0
      else if String.eqb model "QwQ-32B-Preview" then
        add_token_cost total_cost item 1.2 1.2
      else if String.eqb model "DeepSeek-R1" then
        add_token_cost total_cost item 7 7
      else if String.eqb model "DeepSeek-V3" then
        add_token_cost total_cost item 1.25 1.25
      else if String.eqb model "Llama-3.3-70B-Instruct-Turbo" then
        add_token_cost total_cost item 0.88 0.88
      else Ok total_cost
  end.

(** The loop over [data], from the running total [total_cost]. *)
Fixpoint cost_loop (model : string) (total_cost : Q) (data : list record)
  : result Q :=
  match data with
  | [] => Ok total_cost
  | item :: data' =>
      let* total_cost := cost_step model total_cost item in
      cost_loop model total_cost data'
  end.

Definition calculate_cost_from_token_usage (data : list record)
  (model : string) : result Q :=
  let* total_cost := cost_loop model 0 data in
  if (0 <? length data)%nat then truediv total_cost (len data) else Ok 0%Q.

(** The models the chain of comparisons has a price for. *)
Definition priced_models : list string :=
  [ "gpt-4o-mini"; "gpt-4o"; "o3-mini"; "o1-mini"; "claude-3-5-sonnet";
    "claude-3-5-haiku"; "QwQ-32B-Preview"; "DeepSeek-R1"; "DeepSeek-V3";
    "Llama-3.3-70B-Instruct-Turbo" ].

(** *** [calculate_time_from_data] *)

Definition time_loop (total_time : Q) (data : list record) : Q :=
  foldl (fun total_time item => (total_time + time_elapsed item)%Q)
        total_time data.

Definition calculate_time_from_data (data : list record) : result Q :=
  let total_time := time_loop 0 data in
  truediv total_time (len data).

(** *** [get_score_from_file] *)

(** A value of [numpy.float64] as far as it is needed here: [np.mean]
    of an empty list is [nan] (with a warning, no exception). *)
Inductive npfloat : Type :=
| NaN
| Num (q : Q).

Definition np_mean (answers : list bool) : npfloat :=
  match answers with
  | [] => NaN
  | _ :: _ =>
      Num (inject_Z (Z.of_nat (length (filter (fun b => b = true) answers)))
           / len answers)%Q
  end.

Definition np_mul (x : npfloat) (k : Q) : npfloat :=
  match x with
  | NaN => NaN
  | Num q => Num (q * k)%Q
  end.

(** [dict.get]: a missing key reads as [None]. *)
Definition get (field : option pyval) : pyval :=
  match field with
  | Some v => v
  | None => VNone
  end.

(** [item.get('answer_idx') or item.get('answer')] *)
Definition ground_truth (item : record) : pyval :=
  let a := get (answer_idx item) in
  if truthy a then a else get (answer item).

(** The list [answers] built by the loop over [dedup]. *)
Definition answers_of (dedup : list record) : list bool :=
  map (fun item => py_eq (ground_truth item) (predicted_answer item)) dedup.

(** The function on the parsed content [data] of the file; opening the
    file and [json.load] are outside the model. *)
Definition get_score_from_file (data : list record) (model_name : string)
  : result (npfloat * nat * Q * Q) :=
  let dedup := deduplicate_data data in
  let answers := answers_of dedup in
  let acc := np_mul (np_mean answers) 100 in
  let* avg_cost := calculate_cost_from_token_usage dedup model_name in
  let* avg_time := calculate_time_from_data dedup in
  Ok (acc, length dedup, avg_cost, avg_time).

End Utils.

(** ** [make_table.py]: [create_results_table] *)

Module Driver.
Import PyStr MakeTable Utils.
Local Open Scope list_scope.

(** [s.endswith(suffix)] *)
Definition endswith (s suffix : string) : bool :=
  (String.length suffix <=? String.length s)%nat
  && String.eqb (drop (String.length s - String.length suffix) s) suffix.

(** What [iterdir] yields for a directory: for every entry its name,
    whether it is a regular file and, for a file, the list of records
    that [json.load] reads from it. *)
Record dir_entry : Type := {
  entry_name : string;
  entry_is_file : bool;
  entry_data : list record
}.

(** One element of [results_data].  [parse_method] returns its argument
    when it is not a known token, also when it is [None]. *)
Record row : Type := {
  row_exp_name : option string;
  row_dataset : string;
  row_model : string;
  row_run_id : Z;
  row_accuracy : npfloat;
  row_avg_time : Q;
  row_avg_cost : Q;
  row_count : nat
}.

Definition run_ids : list Z := [0; 1; 2]%Z.

(** A loop whose body may raise, on the state [s]. *)
Fixpoint for_each {A S : Type} (body : S → A → result S) (l : list A) (s : S)
  : result S :=
  match l with
  | [] => Ok s
  | x :: l' =>
      let* s' := body s x in
      for_each body l' s'
  end.

Section WithRound.

(** Python's [round(x, ndigits)]; its result depends on the binary
    representation of [x] and is left open. *)
Variable round : Q → Z → Q.

Definition round_np (x : npfloat) (ndigits : Z) : npfloat :=
  match x with
  | NaN => NaN
  | Num q => Num (round q ndigits)
  end.

(** The body of the innermost loop for the file [json_file] of the
    directory [run-<run_id>/<dataset>]: [None] when the loop goes on with
    the next file ([continue]), the row that is appended otherwise.
    [accuracy is not None] holds for every value [get_score_from_file]
    returns. *)
Definition file_row (run_id : Z) (dataset : string) (json_file : dir_entry)
  : result (option row) :=
  if negb (entry_is_file json_file)
     || negb (endswith (entry_name json_file) ".json")
  then Ok None
  else
    let p := parse_filename (entry_name json_file) in
    let '(parsed_model, parsed_dataset, parsed_split, method) := p in
    if skipped p dataset then Ok None
    else
      match parsed_model with
      | None => Ok None
      | Some parsed_model =>
          let* score := get_score_from_file (entry_data json_file) parsed_model in
          let '(accuracy, count, cost, time) := score in
          let model_csv_name := replace parsed_model "-" "_" in
          Ok (Some {| row_exp_name := parse_method <$> method;
                      row_dataset := dataset;
                      row_model := model_csv_name;
                      row_run_id := run_id;
                      row_accuracy := round_np accuracy 1;
                      row_avg_time := round time 2;
                      row_avg_cost := round cost 4;
                      row_count := count |})
      end.

Definition append_row (run_id : Z) (dataset : string)
    (results_data : list row) (json_file : dir_entry) : result (list row) :=
  let* r := file_row run_id dataset json_file in
  Ok (match r with
      | Some r => results_data ++ [r]
      | None => results_data
      end).

(** The loop over [datasets] in the directory of a run, of which
    [run_dir] gives the sub-directories by name. *)
Definition dataset_loop (run_id : Z) (run_dir : gmap string (list dir_entry))
    (results_data : list row) (dataset : string) : result (list row) :=
  match run_dir !! dataset with
  | None => Ok results_data
  | Some listing => for_each (append_row run_id dataset) listing results_data
  end.

(** The loop over [run_ids]; [fs] gives the directory [run-<run_id>] for
    the run ids that have one. *)
Definition run_loop (fs : gmap Z (gmap string (list dir_entry)))
    (results_data : list row) (run_id : Z) : result (list row) :=
  match fs !! run_id with
  | None => Ok results_data
  | Some run_dir => for_each (dataset_loop run_id run_dir) datasets results_data
  end.

(** The list [results_data] at the end of the loops of
    [create_results_table].  The [DataFrame] that is built from it and
    its sorting are pandas' and outside the model. *)
Definition create_results_table_rows
    (fs : gmap Z (gmap string (list dir_entry))) : result (list row) :=
  for_each (run_loop fs) run_ids [].

End WithRound.

End Driver.

(** ** [utils.py] on records with missing keys *)

(** The functions of [Utils] read [realidx], [predicted_answer],
    [time_elapsed] and the two token counts with [item[...]], which raises
    [KeyError] on a missing key.  [Raw] embeds the same functions on
    records in which every key may be missing; values that are present
    have the types of [Utils]. *)
Module Raw.
Import Utils Driver.
Local Open Scope list_scope.

Record usage : Type := {
  prompt_tokens : option Z;
  completion_tokens : option Z
}.

Record record : Type := {
  realidx : option pykey;
  answer_idx : option pyval;
  answer : option pyval;
  predicted_answer : option pyval;
  time_elapsed : option Q;
  cost : option Q;
  token_usage : option usage
}.

(** *** [deduplicate_data] *)

Definition dedup_step (st : gset pykey * list record) (item : record)
  : result (gset pykey * list record) :=
  let* idx := getitem "realidx" (realidx item) in
  Ok (if decide (idx ∈ st.1) then st
      else ({[ idx ]} ∪ st.1, st.2 ++ [item])).

Definition deduplicate_data (data : list record) : result (list record) :=
  let* st := for_each dedup_step data (∅, []) in
  Ok st.2.

(** *** [calculate_cost_from_token_usage] *)

(** The left operand of the sum is evaluated first: [token_usage], then
    [prompt_tokens], then [completion_tokens]. *)
Definition add_token_cost (total_cost : Q) (item : record) (p_in p_out : Q)
  : result Q :=
  let* u := getitem "token_usage" (token_usage item) in
  let* p := getitem "prompt_tokens" (prompt_tokens u) in
  let* c := getitem "completion_tokens" (completion_tokens u) in
  Ok (total_cost + (inject_Z p * p_in / 1000000
                    + inject_Z c * p_out / 1000000))%Q.

Definition cost_step (model : string) (total_cost : Q) (item : record)
  : result Q :=
  match cost item with
  | Some c => Ok (total_cost + c)%Q
  | None =>
      if String.eqb model "gpt-4o-mini" then
        add_token_cost total_cost item 0.15 0.6
      else if String.eqb model "gpt-4o" then
        add_token_cost total_cost item 2.5 10
      else if String.eqb model "o3-mini" || String.eqb model "o1-mini" then
        add_token_cost total_cost item 1.1 4.4
      else if String.eqb model "claude-3-5-sonnet" then
        add_token_cost total_cost item 3.0 15.0
      else if String.eqb model "claude-3-5-haiku" then
        add_token_cost total_cost item 0.8 4.0
      else if String.eqb model "QwQ-32B-Preview" then
        add_token_cost total_cost item 1.2 1.2
      else if String.eqb model "DeepSeek-R1" then
        add_token_cost total_cost item 7 7
      else if String.eqb model "DeepSeek-V3" then
        add_token_cost total_cost item 1.25 1.25
      else if String.eqb model "Llama-3.3-70B-Instruct-Turbo" then
        add_token_cost total_cost item 0.88 0.88
      else Ok total_cost
  end.

Definition calculate_cost_from_token_usage (data : list record)
  (model : string) : result Q :=
  let* total_cost := for_each (cost_step model) data 0%Q in
  if (0 <? length data)%nat then truediv total_cost (len data) else Ok 0%Q.

(** *** [calculate_time_from_data] *)

Definition time_step (total_time : Q) (item : record) : result Q :=
  let* t := getitem "time_elapsed" (time_elapsed item) in
  Ok (total_time + t)%Q.

Definition calculate_time_from_data (data : list record) : result Q :=
  let* total_time := for_each time_step data 0%Q in
  truediv total_time (len data).

(** *** [get_score_from_file] *)

Definition ground_truth (item : record) : pyval :=
  let a := get (answer_idx item) in
  if truthy a then a else get (answer item).

(** The body of the loop that builds [answers]: [gt] is computed with
    [get] and cannot fail, [pred] is read with [item['predicted_answer']]. *)
Definition answers_step (answers : list bool) (item : record)
  : result (list bool) :=
  let gt := ground_truth item in
  let* pred := getitem "predicted_answer" (predicted_answer item) in
  Ok (answers ++ [py_eq gt pred]).

Definition get_score_from_file (data : list record) (model_name : string)
  : result (npfloat * nat * Q * Q) :=
  let* dedup := deduplicate_data data in
  let* answers := for_each answers_step dedup [] in
  let acc := np_mul (np_mean answers) 100 in
  let* avg_cost := calculate_cost_from_token_usage dedup model_name in
  let* avg_time := calculate_time_from_data dedup in
  Ok (acc, length dedup, avg_cost, avg_time).

(** *** Records with all their keys *)

Definition of_usage (u : Utils.usage) : usage :=
  {| prompt_tokens := Some (Utils.prompt_tokens u);
     completion_tokens := Some (Utils.completion_tokens u) |}.

Definition of_record (item : Utils.record) : record :=
  {| realidx := Some (Utils.realidx item);
     answer_idx := Utils.answer_idx item;
     answer := Utils.answer item;
     predicted_answer := Some (Utils.predicted_answer item);
     time_elapsed := Some (Utils.time_elapsed item);
     cost := Utils.cost item;
     token_usage := of_usage <$> Utils.token_usage item |}.



End Raw.

(** * Notions used in the statements *)

Section DecoderNotions.
Import PyStr MakeTable.

(** The file name the benchmark writes for a run. *)
Definition result_filename (model dataset split method : string) : string :=
  model ++ "-" ++ dataset ++ "-" ++ split ++ "-" ++ method ++ ".json".

(** The three ways a file name fails to decode: no model name is a prefix
    of it; or one is, and no data set name occurs in what follows; or
    both are found, and no split name occurs in what is left. *)
Definition no_match (filename : string) : Prop :=
  let name := replace filename ".json" "" in
  Forall (λ prefix, startswith name prefix = false) model_prefixes
  ∨ (∃ model remaining,
       model_stage name = Some (model, remaining)
       ∧ Forall (λ ds, contains remaining ds = false) datasets)
  ∨ (∃ model remaining dataset remaining',
       model_stage name = Some (model, remaining)
       ∧ dataset_stage remaining = Some (dataset, remaining')
       ∧ Forall (λ s, contains remaining' s = false) splits).

(** The candidates the data set loop tries before ["mmlu-pro"]. *)
Definition tried_before_mmlu_pro : list string :=
  [ "medxpertqa-r"; "medxpertqa-u"; "medbullets"; "pubmedqa" ].

(** No non-empty suffix of [a] is a proper prefix of [sub]: an occurrence
    of [sub] in [a ++ t] then lies in [a] or in [t] and does not straddle
    the two. *)
Fixpoint no_straddle (a sub : string) : bool :=
  match a with
  | EmptyString => true
  | String _ a' =>
      negb (startswith sub a && (String.length a <? String.length sub)%nat)
      && no_straddle a' sub
  end.

(** The conditions under which a stage does on [a ++ t] what it does on
    [a], whatever the token [t] that follows: they are tests on [a] and
    on the candidates alone.

    The extension: [a] has no [".json"] and none can begin in it. *)
Definition extension_ok (a : string) : bool :=
  negb (contains a ".json") && no_straddle a ".json".

(** The model stage: [a] is a proper prefix of no model name, the longest
    model name it starts with is [model], and [a'] is what follows. *)
Definition model_ok (model a a' : string) : bool :=
  forallb (λ prefix,
     negb (startswith prefix a
           && (String.length a <? String.length prefix)%nat))
     (sorted_len_reverse model_prefixes)
  && bool_decide (find (λ prefix, startswith a prefix)
                       (sorted_len_reverse model_prefixes) = Some model)
  && (String.length model <=? String.length a)%nat
  && bool_decide (lstrip (drop (String.length model) a) "-" = a')
  && negb (is_empty a').

(** A stage that looks for the candidates [cands] anywhere: a candidate
    that is not in [a] cannot begin in it, the first candidate found is
    [x], at the very beginning, and [a'] is what follows. *)
Definition containment_ok (cands : list string) (x a a' : string) : bool :=
  forallb (λ c, contains a c || no_straddle a c) cands
  && bool_decide (find (λ c, contains a c) cands = Some x)
  && startswith a x
  && (String.length x <=? String.length a)%nat
  && bool_decide (lstrip (drop (String.length x) a) "-" = a').

(** The three components of a name [<model>-<dataset>-<split>-<method>]
    are decoded stage by stage whatever the method. *)
Definition separates (model dataset split : string) : bool :=
  let a0 := model ++ "-" ++ dataset ++ "-" ++ split ++ "-" in
  let a1 := dataset ++ "-" ++ split ++ "-" in
  let a2 := split ++ "-" in
  extension_ok a0
  && model_ok model a0 a1
  && containment_ok (sorted_len_reverse datasets) dataset a1 a2
  && containment_ok splits split a2 ""
  && contains a2 "test"
  && negb (is_empty model || is_empty dataset || is_empty split).

End DecoderNotions.

Section ExtractorNotions.
Import Utils.
Local Open Scope list_scope.

(** The specification's reading of deduplication: the first record is
    kept, every later record with its [realidx] is discarded, and so on
    for the records that are left. *)
Fixpoint first_occurrences (data : list record) : list record :=
  match data with
  | [] => []
  | item :: data' =>
      item :: filter (λ later, realidx later ≠ realidx item)
                     (first_occurrences data')
  end.

(** The record of the specification's example: [answer_idx] is [""],
    [answer] is ["B"]. *)
Definition empty_answer_idx (pred : pyval) : record :=
  {| realidx := KInt 7;
     answer_idx := Some (VStr "");
     answer := Some (VStr "B");
     predicted_answer := pred;
     time_elapsed := 1.5;
     cost := Some 0.25%Q;
     token_usage := None |}.

(** The same record with another [token_usage] field, or with none. *)
Definition with_token_usage (item : record) (u : option usage) : record :=
  {| realidx := realidx item;
     answer_idx := answer_idx item;
     answer := answer item;
     predicted_answer := predicted_answer item;
     time_elapsed := time_elapsed item;
     cost := cost item;
     token_usage := u |}.

(** A record whose cost and token counts disagree. *)
Definition inconsistent_record : record :=
  {| realidx := KStr "q1";
     answer_idx := Some (VStr "A");
     answer := None;
     predicted_answer := VStr "A";
     time_elapsed := 2;
     cost := Some 0.5%Q;
     token_usage := Some {| prompt_tokens := 1000000;
                            completion_tokens := 1000000 |} |}.

(** A record with token counts and no [cost]. *)
Definition token_record : record :=
  {| realidx := KInt 1;
     answer_idx := Some (VStr "C");
     answer := None;
     predicted_answer := VStr "D";
     time_elapsed := 3;
     cost := None;
     token_usage := Some {| prompt_tokens := 100; completion_tokens := 50 |} |}.

(** A record from which no cost can be computed for [model]: it has no
    [cost], the model has a price, and it has no [token_usage]. *)
Definition lacks_tokens (model : string) (item : record) : bool :=
  match cost item, token_usage item with
  | None, None => bool_decide (model ∈ priced_models)
  | _, _ => false
  end.

(** A record whose time, cost and token counts are not negative. *)
Definition nonnegative_record (item : record) : Prop :=
  (0 <= time_elapsed item)%Q
  ∧ (∀ c, cost item = Some c → (0 <= c)%Q)
  ∧ (∀ u, token_usage item = Some u →
       (0 ≤ prompt_tokens u)%Z ∧ (0 ≤ completion_tokens u)%Z).

End ExtractorNotions.

Section DriverNotions.
Import MakeTable Utils Driver.

(** A directory entry that the innermost loop does not pass over: a
    regular file whose name ends in [".json"] and decodes to one of the
    three models of the table, the data set of the directory and the
    split [test_hard]. *)
Definition qualifies (dataset : string) (e : dir_entry) : bool :=
  entry_is_file e
  && endswith (entry_name e) ".json"
  && negb (skipped (parse_filename (entry_name e)) dataset).

(** The entry [e] is in a directory [run-<run_id>/<dataset>] that exists
    and that the loops go through. *)
Definition visited (fs : gmap Z (gmap string (list dir_entry)))
    (run_id : Z) (dataset : string) (e : dir_entry) : Prop :=
  run_id ∈ run_ids
  ∧ dataset ∈ datasets
  ∧ ∃ run_dir listing,
      fs !! run_id = Some run_dir
      ∧ run_dir !! dataset = Some listing
      ∧ e ∈ listing.

(** The row of a file with the given decoded name and score. *)
Definition row_for (round : Q → Z → Q) (run_id : Z) (dataset model : string)
    (method : string) (score : npfloat * nat * Q * Q) : row :=
  let '(accuracy, count, cost, time) := score in
  {| row_exp_name := Some (parse_method method);
     row_dataset := dataset;
     row_model := PyStr.replace model "-" "_";
     row_run_id := run_id;
     row_accuracy := round_np round accuracy 1;
     row_avg_time := round time 2%Z;
     row_avg_cost := round cost 4%Z;
     row_count := count |}.

(** What a row says about the tree: it is the row of a file that
    qualifies, in a directory that the loops go through, with the name
    and the score of that file. *)
Definition row_of_file (round : Q → Z → Q)
    (fs : gmap Z (gmap string (list dir_entry))) (r : row) : Prop :=
  ∃ e model method score,
    visited fs (row_run_id r) (row_dataset r) e
    ∧ qualifies (row_dataset r) e = true
    ∧ parse_filename (entry_name e)
      = (Some model, Some (row_dataset r), Some "test_hard", Some method)
    ∧ model ∈ model_names
    ∧ get_score_from_file (entry_data e) model = Ok score
    ∧ r = row_for round (row_run_id r) (row_dataset r) model method score.

(** A small tree: run 1 has the directory [medqa] with a result file, a
    result file of another split, a text file and a sub-directory; run 5
    is not among the run ids. *)
Definition sample_tree : gmap Z (gmap string (list dir_entry)) :=
  {[ 1%Z := {[ "medqa" :=
        [ {| entry_name := "gpt-4o-medqa-test_hard-cot.json";
             entry_is_file := true;
             entry_data := [token_record; inconsistent_record] |};
          {| entry_name := "gpt-4o-medqa-test-cot.json";
             entry_is_file := true;
             entry_data := [] |};
          {| entry_name := "notes.txt";
             entry_is_file := true;
             entry_data := [] |};
          {| entry_name := "o3-mini-medqa-test_hard-cot.json";
             entry_is_file := false;
             entry_data := [] |} ] ]};
     5%Z := {[ "medqa" :=
        [ {| entry_name := "gpt-4o-medqa-test_hard-cot.json";
             entry_is_file := true;
             entry_data := [] |} ] ]} ]}.

(** The same with an empty result file in run 2. *)
Definition broken_tree : gmap Z (gmap string (list dir_entry)) :=
  <[ 2%Z := {[ "mmlu" :=
        [ {| entry_name := "o3-mini-mmlu-test_hard.json";
             entry_is_file := true;
             entry_data := [] |} ] ]} ]> sample_tree.

(** [round] replaced by the identity, to run the loops on an example. *)
Definition no_rounding (x : Q) (ndigits : Z) : Q := x.

(** The first file of [sample_tree]. *)
Definition sample_file : dir_entry :=
  {| entry_name := "gpt-4o-medqa-test_hard-cot.json";
     entry_is_file := true;
     entry_data := [token_record; inconsistent_record] |}.

(** The empty result file of [broken_tree]. *)
Definition empty_file : dir_entry :=
  {| entry_name := "o3-mini-mmlu-test_hard.json";
     entry_is_file := true;
     entry_data := [] |}.

(** The rows of [sample_tree]. *)
Definition sample_rows : list row :=
  Eval vm_compute in
    match create_results_table_rows no_rounding sample_tree with
    | Ok rows => rows
    | Err _ => []
    end.

End DriverNotions.

Section RawNotions.
Import Utils.

(** A record with token counts and no [cost], like [token_record], with
    the keys that are listed in [missing] left out. *)
Definition raw_token_record (missing : list string) : Raw.record :=
  let has key := negb (bool_decide (key ∈ missing)) in
  let field {A : Type} (key : string) (v : A) : option A :=
    if has key then Some v else None in
  {| Raw.realidx := field "realidx" (KInt 1);
     Raw.answer_idx := Some (VStr "C");
     Raw.answer := None;
     Raw.predicted_answer := field "predicted_answer" (VStr "D");
     Raw.time_elapsed := field "time_elapsed" 3%Q;
     Raw.cost := None;
     Raw.token_usage :=
       field "token_usage"
         {| Raw.prompt_tokens := field "prompt_tokens" 100%Z;
            Raw.completion_tokens := field "completion_tokens" 50%Z |} |}.

End RawNotions.

(** * Properties of the filename decoder *)

Section Decoder.
Import PyStr MakeTable.

(** The order in which the two loops try their candidates. *)
Lemma sorted_model_prefixes :
  sorted_len_reverse model_prefixes =
  [ "Llama-3.3-70B-Instruct-Turbo"; "claude-3-5-sonnet"; "claude-3-5-haiku";
    "QwQ-32B-Preview"; "gpt-35-turbo"; "DeepSeek-R1"; "DeepSeek-V3";
    "gpt-4o-mini"; "QwQ-32B"; "o1-mini"; "o3-mini"; "gpt-4o"; "gpt-4" ].
Proof. reflexivity. Qed.

Lemma sorted_datasets :
  sorted_len_reverse datasets =
  [ "medxpertqa-r"; "medxpertqa-u"; "medbullets"; "pubmedqa"; "mmlu-pro";
    "medexqa"; "medmcqa"; "medqa"; "mmlu" ].
Proof. reflexivity. Qed.

Lemma elem_of_insert_by_len (x y : string) (l : list string) :
  x ∈ insert_by_len y l ↔ x = y ∨ x ∈ l.
Proof.
  induction l as [|z l IH]; simpl.
  - rewrite list_elem_of_singleton, elem_of_nil. tauto.
  - destruct (_ <? _)%nat; rewrite !elem_of_cons, ?IH; tauto.
Qed.

Lemma elem_of_sorted_len_reverse (x : string) (l : list string) :
  x ∈ sorted_len_reverse l ↔ x ∈ l.
Proof.
  unfold sorted_len_reverse. induction l as [|y l IH]; simpl; [done|].
  rewrite elem_of_insert_by_len, elem_of_cons, IH. tauto.
Qed.

(** The candidates are tried by decreasing length. *)
Lemma insert_by_len_sorted (x : string) (l : list string) :
  Sorted (λ a b, (String.length b ≤ String.length a)%nat) l →
  Sorted (λ a b, (String.length b ≤ String.length a)%nat) (insert_by_len x l).
Proof.
  induction 1 as [|y l Hs IH Hhd]; simpl.
  - by repeat constructor.
  - destruct (String.length x <? String.length y)%nat eqn:E.
    + apply Nat.ltb_lt in E. constructor; [done|].
      destruct Hhd as [|z l Hz]; simpl.
      * constructor. lia.
      * destruct (_ <? _)%nat; constructor; [done | lia].
    + apply Nat.ltb_ge in E. by repeat constructor.
Qed.

Lemma sorted_len_reverse_sorted (l : list string) :
  Sorted (λ a b, (String.length b ≤ String.length a)%nat) (sorted_len_reverse l).
Proof.
  unfold sorted_len_reverse. induction l as [|x l IH]; simpl; [constructor|].
  by apply insert_by_len_sorted.
Qed.

Lemma Forall_sorted_len_reverse (P : string → Prop) (l : list string) :
  Forall P l → Forall P (sorted_len_reverse l).
Proof.
  rewrite !Forall_forall. intros H x Hx.
  by apply H, elem_of_sorted_len_reverse.
Qed.

(** A loop that finds no candidate leaves its variable at [None]. *)
Lemma find_no_match (f : string → bool) (l : list string) :
  Forall (λ x, f x = false) l → find f l = None.
Proof.
  induction 1 as [|x l Hx _ IH]; simpl; [done|]. by rewrite Hx.
Qed.

(** What [find] returns is one of the candidates and passes the test. *)
Lemma find_is_match (f : string → bool) (l : list string) (x : string) :
  find f l = Some x → x ∈ l ∧ f x = true.
Proof.
  intros H. apply find_some in H as [H1 H2]. by rewrite list_elem_of_In.
Qed.

Lemma startswith_app (s a b : string) :
  startswith s (a ++ b) = true → startswith s a = true.
Proof.
  revert s. induction a as [|c a IH]; intros s.
  - by destruct s.
  - change (String c a ++ b) with (String c (a ++ b)).
    destruct s as [|d s]; simpl; [done|].
    rewrite !andb_true_iff. intros [? ?]. eauto.
Qed.

(** A string that contains [a ++ b] contains [a]. *)
Lemma contains_app (s a b : string) :
  contains s (a ++ b) = true → contains s a = true.
Proof.
  induction s as [|c s IH].
  - cbn [contains]. rewrite !orb_false_r. apply startswith_app.
  - cbn [contains]. rewrite !orb_true_iff.
    intros [H|H]; [left; by eapply startswith_app | right; by apply IH].
Qed.

(** *** Well-formed file names *)

Lemma parse_filename_vocabulary :
  Forall (λ model, Forall (λ dataset, Forall (λ split, Forall (λ method,
    parse_filename (result_filename model dataset split method)
    = (Some model, Some dataset, Some split, Some method))
  method_keys) splits) datasets) model_prefixes.
Proof. apply (bool_decide_unpack _). vm_compute. exact I. Qed.

(** C1. For a file name [<model>-<dataset>-<split>-<method>.json] whose
    model, data set and split come from the three vocabularies and
    whose method is a raw token the normalizer knows, [parse_filename]
    returns exactly these four components. *)
Theorem parse_filename_roundtrip (model dataset split method : string) :
  model ∈ model_prefixes →
  dataset ∈ datasets →
  split ∈ splits →
  method ∈ method_keys →
  parse_filename (result_filename model dataset split method)
  = (Some model, Some dataset, Some split, Some method).
Proof.
  intros Hm Hd Hs Hk.
  pose proof parse_filename_vocabulary as H.
  rewrite Forall_forall in H. specialize (H _ Hm).
  rewrite Forall_forall in H. specialize (H _ Hd).
  rewrite Forall_forall in H. specialize (H _ Hs).
  rewrite Forall_forall in H. exact (H _ Hk).
Qed.

Lemma parse_filename_roundtrip_witness :
  parse_filename "gpt-4o-mini-mmlu-pro-test_hard-cot_sc-5.json"
  = (Some "gpt-4o-mini", Some "mmlu-pro", Some "test_hard", Some "cot_sc-5").
Proof.
  apply (parse_filename_roundtrip "gpt-4o-mini" "mmlu-pro" "test_hard" "cot_sc-5");
    apply (bool_decide_unpack _); vm_compute; exact I.
Defined.

(** *** Undecodable file names *)

Lemma model_stage_no_match (name : string) :
  Forall (λ prefix, startswith name prefix = false) model_prefixes →
  model_stage name = None.
Proof.
  intros H. unfold model_stage.
  by rewrite find_no_match by by apply Forall_sorted_len_reverse.
Qed.

Lemma dataset_stage_no_match (remaining : string) :
  Forall (λ ds, contains remaining ds = false) datasets →
  dataset_stage remaining = None.
Proof.
  intros H. unfold dataset_stage.
  by rewrite find_no_match by by apply Forall_sorted_len_reverse.
Qed.

Lemma split_stage_no_match (remaining : string) :
  Forall (λ s, contains remaining s = false) splits →
  split_stage remaining = None.
Proof. intros H. unfold split_stage. by rewrite find_no_match. Qed.

(** C7. When one of the three stages finds no match, [parse_filename]
    returns with all four fields [None]; being a value of [parsed], the
    result is a normal return and not an exception, and the caller
    skips the file, whatever the directory it is in. *)
Theorem parse_filename_undecodable (filename : string) :
  no_match filename →
  parse_filename filename = undecodable
  ∧ ∀ dataset, skipped (parse_filename filename) dataset = true.
Proof.
  intros H. cut (parse_filename filename = undecodable).
  { by intros ->. }
  revert H. unfold no_match, parse_filename.
  intros [H | [(model & rem & Hm & H) | (model & rem & ds & rem' & Hm & Hd & H)]].
  - by rewrite model_stage_no_match.
  - rewrite Hm, dataset_stage_no_match by done. by destruct (is_empty model).
  - rewrite Hm, Hd, split_stage_no_match by done.
    by destruct (is_empty model), (is_empty ds).
Qed.

Lemma parse_filename_undecodable_witness :
  parse_filename "gpt-4o-medqa-train-cot.json" = undecodable
  ∧ ∀ dataset, skipped (parse_filename "gpt-4o-medqa-train-cot.json") dataset
               = true.
Proof.
  apply parse_filename_undecodable. right. right.
  exists "gpt-4o", "medqa-train-cot", "medqa", "train-cot".
  repeat split; try reflexivity.
  apply (bool_decide_unpack _). vm_compute. exact I.
Defined.

(** Conversely, a file name that decodes to nothing failed one of the
    stages: [no_match] describes the undecodable names exactly. *)
Lemma find_None_Forall (f : string → bool) (l : list string) :
  find f l = None → Forall (λ x, f x = false) l.
Proof.
  intros H. apply Forall_forall. intros x Hx.
  apply (find_none _ _ H). by apply list_elem_of_In.
Qed.

Lemma Forall_of_sorted_len_reverse (P : string → Prop) (l : list string) :
  Forall P (sorted_len_reverse l) → Forall P l.
Proof.
  rewrite !Forall_forall. intros H x Hx.
  by apply H, elem_of_sorted_len_reverse.
Qed.

(** Every name of the three vocabularies is a non-empty string. *)
Lemma vocabulary_nonempty (x : string) :
  x ∈ model_prefixes ∨ x ∈ datasets ∨ x ∈ splits → is_empty x = false.
Proof.
  intros [H | [H | H]];
    repeat (apply elem_of_cons in H as [->|H]; [done|]);
    by apply elem_of_nil in H.
Qed.

Lemma model_stage_Some (name model remaining : string) :
  model_stage name = Some (model, remaining) →
  model ∈ model_prefixes ∧ startswith name model = true.
Proof.
  unfold model_stage. destruct (find _ _) as [m|] eqn:Hf; [|done].
  intros [= <- _]. apply find_is_match in Hf as [Hin Ht].
  split; [by apply elem_of_sorted_len_reverse | exact Ht].
Qed.

Lemma dataset_stage_Some (remaining dataset remaining' : string) :
  dataset_stage remaining = Some (dataset, remaining') →
  dataset ∈ datasets ∧ contains remaining dataset = true.
Proof.
  unfold dataset_stage. destruct (find _ _) as [d|] eqn:Hf; [|done].
  intros [= <- _]. apply find_is_match in Hf as [Hin Ht].
  split; [by apply elem_of_sorted_len_reverse | exact Ht].
Qed.

Lemma split_stage_Some (remaining split remaining' : string) :
  split_stage remaining = Some (split, remaining') →
  split ∈ splits ∧ contains remaining split = true.
Proof.
  unfold split_stage. destruct (find _ _) as [d|] eqn:Hf; [|done].
  intros [= <- _]. by apply find_is_match in Hf.
Qed.

(** X2. When [parse_filename] returns four [None], one of the three stages
    found no match: together with the converse, the undecodable names
    are exactly those for which no model name is a prefix, or no data set
    name occurs after the model, or no split name occurs in what is left
    after the data set. *)
Lemma undecodable_no_match (filename : string) :
  parse_filename filename = undecodable → no_match filename.
Proof.
  unfold parse_filename, no_match.
  set (name := replace filename ".json" "").
  destruct (model_stage name) as [[model rem]|] eqn:Hm.
  - pose proof (model_stage_Some _ _ _ Hm) as [Hin _].
    rewrite (vocabulary_nonempty model) by auto.
    destruct (dataset_stage rem) as [[ds rem']|] eqn:Hd.
    + pose proof (dataset_stage_Some _ _ _ Hd) as [Hin' _].
      rewrite (vocabulary_nonempty ds) by auto.
      destruct (split_stage rem') as [[sp rem'']|] eqn:Hs.
      * pose proof (split_stage_Some _ _ _ Hs) as [Hin'' _].
        by rewrite (vocabulary_nonempty sp) by auto.
      * intros _. right. right. exists model, rem, ds, rem'.
        split; [done|]. split; [done|]. unfold split_stage in Hs.
        destruct (find _ _) eqn:Hf; [done|]. by apply find_None_Forall.
    + intros _. right. left. exists model, rem. split; [done|].
      unfold dataset_stage in Hd. destruct (find _ _) eqn:Hf; [done|].
      by apply Forall_of_sorted_len_reverse, find_None_Forall.
  - intros _. left. unfold model_stage in Hm.
    destruct (find _ _) eqn:Hf; [done|].
    by apply Forall_of_sorted_len_reverse, find_None_Forall.
Qed.

(** *** The data set stage on names around [mmlu-pro] *)

(** A remainder that contains [mmlu-pro], and so [mmlu], and whose data
    set is neither: [pubmedqa] is as long as [mmlu-pro] and comes before
    it in [datasets], so the stable sort leaves it in front. *)
Lemma mmlu_pro_shadowed_by_pubmedqa :
  model_stage (replace "gpt-4o-mmlu-pro-test-pubmedqa.json" ".json" "")
  = Some ("gpt-4o", "mmlu-pro-test-pubmedqa")
  ∧ contains "mmlu-pro-test-pubmedqa" "mmlu-pro" = true
  ∧ contains "mmlu-pro-test-pubmedqa" "mmlu" = true
  ∧ dataset_stage "mmlu-pro-test-pubmedqa" = Some ("pubmedqa", "mmlu-pro-test")
  ∧ parse_filename "gpt-4o-mmlu-pro-test-pubmedqa.json"
    = (Some "gpt-4o", Some "pubmedqa", Some "test", Some "mmlu-pro")
  ∧ (parse_filename "gpt-4o-mmlu-pro-test-pubmedqa.json").1.1.2
    ≠ Some "mmlu-pro".
Proof. repeat split. discriminate. Qed.

(** The case of a candidate that is found before ["mmlu-pro"]. *)
Local Ltac shadowed :=
  eexists _, _; split; [done|]; split; [done|];
  rewrite !Forall_cons; split; [done | intros (?&?&?&?&_); congruence].

Lemma dataset_stage_with_mmlu_pro (remaining : string) :
  contains remaining "mmlu-pro" = true →
  ∃ dataset remaining',
    dataset_stage remaining = Some (dataset, remaining')
    ∧ dataset ≠ "mmlu"
    ∧ (dataset = "mmlu-pro"
       ↔ Forall (λ ds, contains remaining ds = false) tried_before_mmlu_pro).
Proof.
  intros Hpro. unfold dataset_stage, tried_before_mmlu_pro.
  rewrite sorted_datasets. cbn [find]. rewrite Hpro.
  destruct (contains remaining "medxpertqa-r") eqn:?; [shadowed|].
  destruct (contains remaining "medxpertqa-u") eqn:?; [shadowed|].
  destruct (contains remaining "medbullets") eqn:?; [shadowed|].
  destruct (contains remaining "pubmedqa") eqn:?; [shadowed|].
  eexists _, _; split; [done|]; split; [done|]. by repeat constructor.
Qed.

(** C5, amended. When the remainder after the model name contains
    [mmlu-pro] (and therefore [mmlu]), the data set stage finds a data
    set and it is never [mmlu]; it is [mmlu-pro] exactly when the
    remainder contains none of the names tried before it, and
    [parse_filename] does not report [mmlu] either. *)
Theorem dataset_stage_mmlu_pro (filename model remaining : string) :
  model_stage (replace filename ".json" "") = Some (model, remaining) →
  contains remaining "mmlu-pro" = true →
  contains remaining "mmlu" = true
  ∧ (∃ dataset remaining',
       dataset_stage remaining = Some (dataset, remaining')
       ∧ dataset ≠ "mmlu"
       ∧ (dataset = "mmlu-pro"
          ↔ Forall (λ ds, contains remaining ds = false) tried_before_mmlu_pro))
  ∧ (parse_filename filename).1.1.2 ≠ Some "mmlu".
Proof.
  intros Hm Hpro.
  pose proof (dataset_stage_with_mmlu_pro _ Hpro) as Hstage.
  split; [by apply (contains_app remaining "mmlu" "-pro")|].
  split; [done|].
  destruct Hstage as (ds & rem' & Hd & Hne & _).
  unfold parse_filename. rewrite Hm, Hd.
  destruct (is_empty model); [done|].
  destruct (is_empty ds); [done|].
  destruct (split_stage rem') as [[sp rem'']|]; [|done].
  destruct (is_empty sp); [done|]. simpl. congruence.
Qed.

Lemma dataset_stage_mmlu_pro_witness :
  contains "mmlu-pro-test_hard-cot" "mmlu" = true
  ∧ (∃ dataset remaining',
       dataset_stage "mmlu-pro-test_hard-cot" = Some (dataset, remaining')
       ∧ dataset ≠ "mmlu"
       ∧ (dataset = "mmlu-pro"
          ↔ Forall (λ ds, contains "mmlu-pro-test_hard-cot" ds = false)
                   tried_before_mmlu_pro))
  ∧ (parse_filename "o3-mini-mmlu-pro-test_hard-cot.json").1.1.2 ≠ Some "mmlu".
Proof.
  apply (dataset_stage_mmlu_pro "o3-mini-mmlu-pro-test_hard-cot.json" "o3-mini");
    reflexivity.
Defined.

(** *** The method normalizer *)

(** C9. Outside its table of known tokens [parse_method] is the
    identity. *)
Theorem parse_method_identity (method : string) :
  method ∉ method_keys → parse_method method = method.
Proof.
  intros H. unfold parse_method.
  repeat match goal with
  | |- context [String.eqb method ?key] =>
      destruct (String.eqb_spec method key) as [E|_];
      [exfalso; apply H; rewrite E; set_solver|]
  end.
  reflexivity.
Qed.

Lemma parse_method_identity_witness : parse_method "debate-2" = "debate-2".
Proof.
  apply parse_method_identity.
  apply (bool_decide_unpack _). vm_compute. exact I.
Defined.

(** On its table [parse_method] is not the identity: every known token
    has a display name of its own. *)
Lemma parse_method_known :
  Forall (λ method, parse_method method ≠ method) method_keys.
Proof. repeat constructor; discriminate. Qed.

End Decoder.

(** * Properties of the record extractor *)

Section Extractor.
Import Utils.
Local Open Scope list_scope.

(** *** Deduplication *)

(** After the loop has run over [data], [seen] holds the keys of [data]. *)
Lemma dedup_seen (data : list record) (k : pykey) :
  k ∈ (foldl dedup_step (∅, []) data).1 ↔ k ∈ realidx <$> data.
Proof.
  induction data as [|item data IH] using rev_ind.
  - simpl. by rewrite elem_of_empty, elem_of_nil.
  - rewrite foldl_snoc, fmap_app, elem_of_app. simpl.
    rewrite list_elem_of_singleton, <- IH.
    unfold dedup_step at 1. case_decide as Hin; simpl.
    + split; [tauto | by intros [?| ->]].
    + rewrite elem_of_union, elem_of_singleton. tauto.
Qed.

(** One more record: it is appended when its key is new. *)
Lemma deduplicate_data_snoc (data : list record) (item : record) :
  deduplicate_data (data ++ [item])
  = deduplicate_data data
    ++ (if decide (realidx item ∈ realidx <$> data) then [] else [item]).
Proof.
  unfold deduplicate_data. rewrite foldl_snoc. unfold dedup_step at 1.
  pose proof (dedup_seen data (realidx item)) as Hseen.
  repeat case_decide; simpl; try tauto.
  by rewrite app_nil_r.
Qed.

Lemma first_occurrences_snoc (data : list record) (item : record) :
  first_occurrences (data ++ [item])
  = first_occurrences data
    ++ (if decide (realidx item ∈ realidx <$> data) then [] else [item]).
Proof.
  induction data as [|x data IH].
  - reflexivity.
  - rewrite <- app_comm_cons. cbn [first_occurrences].
    rewrite IH, filter_app, <- app_comm_cons. f_equal. f_equal.
    rewrite fmap_cons.
    destruct (decide (realidx item = realidx x)) as [E|E].
    + rewrite (decide_True (P := _ ∈ _ :: _))
        by (rewrite E; apply elem_of_cons; by left).
      case_decide; [done|]. by rewrite filter_cons_False, filter_nil by tauto.
    + case_decide as Hin.
      * by rewrite decide_True by (apply elem_of_cons; by right).
      * rewrite decide_False by (rewrite elem_of_cons; tauto).
        by rewrite filter_cons_True by done.
Qed.

Lemma deduplicate_data_spec (data : list record) :
  deduplicate_data data = first_occurrences data.
Proof.
  induction data as [|item data IH] using rev_ind; [done|].
  by rewrite deduplicate_data_snoc, first_occurrences_snoc, IH.
Qed.

Lemma deduplicate_data_sublist (data : list record) :
  deduplicate_data data `sublist_of` data.
Proof.
  induction data as [|item data IH] using rev_ind; [done|].
  rewrite deduplicate_data_snoc. apply sublist_app; [done|].
  case_decide; [apply sublist_nil_l | done].
Qed.

Lemma deduplicate_data_keys (data : list record) (k : pykey) :
  k ∈ realidx <$> deduplicate_data data ↔ k ∈ realidx <$> data.
Proof.
  induction data as [|item data IH] using rev_ind; [done|].
  rewrite deduplicate_data_snoc, !fmap_app, !elem_of_app, IH.
  case_decide as Hin; simpl; rewrite ?list_elem_of_singleton, ?elem_of_nil;
    [|tauto].
  split; [tauto | by intros [?| ->]; left].
Qed.

Lemma deduplicate_data_NoDup (data : list record) :
  NoDup (realidx <$> deduplicate_data data).
Proof.
  induction data as [|item data IH] using rev_ind; [constructor|].
  rewrite deduplicate_data_snoc, fmap_app. apply NoDup_app.
  split; [done|]. case_decide as Hin; simpl.
  - split; [|constructor]. intros k _. apply not_elem_of_nil.
  - split; [|apply NoDup_singleton].
    intros k Hk. rewrite deduplicate_data_keys in Hk.
    rewrite list_elem_of_singleton. by intros ->.
Qed.

(** C6. [deduplicate_data] returns the first occurrences: the records
    are taken in the order of the input, a record being kept exactly
    when no earlier record has its [realidx]; the result is a
    subsequence of the input in which every [realidx] of the input
    occurs once. *)
Theorem deduplicate_data_first_occurrences (data : list record) :
  deduplicate_data data = first_occurrences data
  ∧ deduplicate_data data `sublist_of` data
  ∧ NoDup (realidx <$> deduplicate_data data)
  ∧ (∀ k, k ∈ realidx <$> deduplicate_data data ↔ k ∈ realidx <$> data)
  ∧ (∀ earlier item later, data = earlier ++ item :: later →
       deduplicate_data (earlier ++ [item])
       = deduplicate_data earlier
         ++ (if decide (realidx item ∈ realidx <$> earlier) then [] else [item])
       ∧ deduplicate_data (earlier ++ [item]) `prefix_of` deduplicate_data data).
Proof.
  split; [apply deduplicate_data_spec|].
  split; [apply deduplicate_data_sublist|].
  split; [apply deduplicate_data_NoDup|].
  split; [apply deduplicate_data_keys|].
  intros earlier item later ->. split; [apply deduplicate_data_snoc|].
  replace (earlier ++ item :: later) with ((earlier ++ [item]) ++ later)
    by by rewrite <- app_assoc.
  generalize (earlier ++ [item]). clear. intros l.
  induction later as [|x later IH] using rev_ind.
  - by rewrite app_nil_r.
  - rewrite app_assoc, deduplicate_data_snoc. by apply prefix_app_r.
Qed.

(** The first record of a file is always kept. *)
Lemma deduplicate_data_nonempty (data : list record) :
  data ≠ [] → deduplicate_data data ≠ [].
Proof. rewrite deduplicate_data_spec. by destruct data. Qed.

(** *** Division by a length *)

Lemma len_nonzero {A : Type} (x : A) (l : list A) :
  Qeq_bool (len (x :: l)) 0 = false.
Proof.
  destruct (Qeq_bool _ _) eqn:E; [|done].
  apply Qeq_bool_eq in E. unfold len, Qeq in E. simpl in E. lia.
Qed.

Lemma truediv_len {A : Type} (a : Q) (l : list A) :
  l ≠ [] → truediv a (len l) = Ok (a / len l)%Q.
Proof.
  destruct l as [|x l]; [done|]. intros _.
  unfold truediv. by rewrite len_nonzero.
Qed.

(** *** The empty file *)

(** On a non-empty list the time average is a value. *)
Lemma calculate_time_from_data_nonempty (data : list record) :
  data ≠ [] →
  calculate_time_from_data data = Ok (time_loop 0 data / len data)%Q.
Proof. intros H. unfold calculate_time_from_data. by apply truediv_len. Qed.

(** C2. On the empty list the time average raises [ZeroDivisionError],
    and so does [get_score_from_file] for a file whose list of records
    is empty: its deduplicated list is empty, the mean of no answers is
    [nan] and the cost average is guarded, so the division of the time
    average is the first thing that fails.  The empty list is the only
    one on which the time average fails, and only the empty file has an
    empty deduplicated list. *)
Theorem empty_data_division_by_zero :
  calculate_time_from_data [] = Err ZeroDivisionError
  ∧ deduplicate_data [] = []
  ∧ np_mul (np_mean (answers_of [])) 100 = NaN
  ∧ (∀ model, calculate_cost_from_token_usage [] model = Ok 0%Q)
  ∧ (∀ model, get_score_from_file [] model = Err ZeroDivisionError)
  ∧ (∀ data, calculate_time_from_data data = Err ZeroDivisionError ↔ data = [])
  ∧ (∀ data, deduplicate_data data = [] ↔ data = []).
Proof.
  do 5 (split; [reflexivity|]). split; intros data.
  - split; [|by intros ->].
    destruct data as [|item data]; [done|].
    by rewrite calculate_time_from_data_nonempty.
  - split; [|by intros ->].
    destruct data as [|item data]; [done|].
    intros H. by apply deduplicate_data_nonempty in H.
Qed.

(** *** Ground truth *)

(** What [get_score_from_file] returns for the accuracy and the count. *)
Lemma get_score_from_file_accuracy (data : list record) (model_name : string)
    (acc : npfloat) (count : nat) (avg_cost avg_time : Q) :
  get_score_from_file data model_name = Ok (acc, count, avg_cost, avg_time) →
  acc = np_mul (np_mean (answers_of (deduplicate_data data))) 100
  ∧ count = length (deduplicate_data data).
Proof.
  unfold get_score_from_file.
  destruct (calculate_cost_from_token_usage _ _); [|done].
  destruct (calculate_time_from_data _); [|done].
  simpl. by intros [= <- <- _ _].
Qed.

(** Deduplicating a longer list only adds records at the end. *)
Lemma deduplicate_data_app_prefix (l k : list record) :
  deduplicate_data l `prefix_of` deduplicate_data (l ++ k).
Proof.
  induction k as [|x k IH] using rev_ind; [by rewrite app_nil_r|].
  rewrite app_assoc, deduplicate_data_snoc. by apply prefix_app_r.
Qed.

(** A record whose [realidx] is new is kept, after the records kept
    before it. *)
Lemma deduplicate_data_kept (earlier later : list record) (item : record) :
  realidx item ∉ realidx <$> earlier →
  ∃ rest,
    deduplicate_data (earlier ++ item :: later)
    = deduplicate_data earlier ++ item :: rest.
Proof.
  intros Hnew.
  destruct (deduplicate_data_app_prefix (earlier ++ [item]) later)
    as [rest Hrest].
  rewrite <- app_assoc in Hrest. simpl in Hrest.
  rewrite deduplicate_data_snoc, decide_False in Hrest by done.
  exists rest. by rewrite Hrest, <- app_assoc.
Qed.

(** On a non-empty file [get_score_from_file] returns as soon as the cost
    average does, with the accuracy of the answers of the records that
    are kept. *)
Lemma get_score_from_file_returns (data : list record) (model_name : string)
    (c : Q) :
  data ≠ [] →
  calculate_cost_from_token_usage (deduplicate_data data) model_name = Ok c →
  get_score_from_file data model_name
  = Ok (np_mul (np_mean (answers_of (deduplicate_data data))) 100,
        length (deduplicate_data data), c,
        (time_loop 0 (deduplicate_data data) / len (deduplicate_data data))%Q).
Proof.
  intros Hne Hc. unfold get_score_from_file.
  rewrite Hc, calculate_time_from_data_nonempty
    by by apply deduplicate_data_nonempty.
  done.
Qed.

(** C3. A record whose [answer_idx] is present but falsy (the empty
    string, for one) takes its ground truth from [answer]: with answer
    ["B"] the ground truth is ["B"], and that is what the accuracy of
    [get_score_from_file] is computed with.  The file with this record
    alone has accuracy 100 when the prediction equals the answer and 0
    otherwise; in any file in which the record is kept, the accuracy is
    the mean over the answers of the kept records, the entry of this
    record being the comparison of its prediction with the answer.
    [answer_idx] is the ground truth only when it is present and
    truthy. *)
Theorem ground_truth_falls_through (item : record) (idx ans : pyval) :
  answer_idx item = Some idx →
  truthy idx = false →
  answer item = Some ans →
  ground_truth item = ans
  ∧ (∀ earlier later,
       answers_of (earlier ++ item :: later)
       = answers_of earlier
         ++ py_eq ans (predicted_answer item) :: answers_of later)
  ∧ (∀ model_name c,
       calculate_cost_from_token_usage [item] model_name = Ok c →
       get_score_from_file [item] model_name
       = Ok (Num (if py_eq ans (predicted_answer item) then 100 else 0),
             1%nat, c, ((0 + time_elapsed item) / 1)%Q))
  ∧ (∀ earlier later model_name,
       realidx item ∉ realidx <$> earlier →
       ∃ rest,
         deduplicate_data (earlier ++ item :: later)
         = deduplicate_data earlier ++ item :: rest
         ∧ ∀ c,
             calculate_cost_from_token_usage
               (deduplicate_data (earlier ++ item :: later)) model_name
             = Ok c →
             ∃ avg_time,
               get_score_from_file (earlier ++ item :: later) model_name
               = Ok (np_mul
                       (np_mean
                          (answers_of (deduplicate_data earlier)
                           ++ py_eq ans (predicted_answer item)
                              :: answers_of rest)) 100,
                     length (deduplicate_data (earlier ++ item :: later)),
                     c, avg_time))
  ∧ (∀ other : record,
       ground_truth other ≠ get (answer other) →
       ∃ idx', answer_idx other = Some idx' ∧ truthy idx' = true
               ∧ ground_truth other = idx').
Proof.
  intros Hidx Hfalsy Hans.
  assert (ground_truth item = ans) as Hgt.
  { unfold ground_truth. rewrite Hidx, Hans. simpl. by rewrite Hfalsy. }
  assert (∀ earlier later,
       answers_of (earlier ++ item :: later)
       = answers_of earlier
         ++ py_eq ans (predicted_answer item) :: answers_of later) as Hans_of.
  { intros earlier later. unfold answers_of.
    rewrite map_app. simpl. by rewrite Hgt. }
  split; [done|]. split; [done|]. split; [|split].
  - intros model_name c Hc.
    assert (deduplicate_data [item] = [item]) as Hone
      by by rewrite deduplicate_data_spec.
    rewrite (get_score_from_file_returns [item] model_name c)
      by (by rewrite ?Hone).
    rewrite Hone. unfold answers_of. cbn [map]. rewrite Hgt.
    by destruct (py_eq ans (predicted_answer item)).
  - intros earlier later model_name Hnew.
    destruct (deduplicate_data_kept earlier later item Hnew) as [rest Hrest].
    exists rest. split; [done|]. intros c Hc. eexists.
    rewrite (get_score_from_file_returns _ model_name c)
      by (by destruct earlier).
    rewrite Hrest at 1. by rewrite Hans_of.
  - intros other. unfold ground_truth.
    destruct (answer_idx other) as [idx'|]; simpl; [|done].
    destruct (truthy idx') eqn:E; [|done]. eauto.
Qed.

Lemma ground_truth_falls_through_witness :
  ground_truth (empty_answer_idx (VStr "B")) = VStr "B"
  ∧ (∀ earlier later,
       answers_of (earlier ++ empty_answer_idx (VStr "B") :: later)
       = answers_of earlier ++ true :: answers_of later)
  ∧ (∀ model_name c,
       calculate_cost_from_token_usage [empty_answer_idx (VStr "B")] model_name
       = Ok c →
       get_score_from_file [empty_answer_idx (VStr "B")] model_name
       = Ok (Num 100, 1%nat, c, ((0 + 1.5) / 1)%Q))
  ∧ (∀ earlier later model_name,
       realidx (empty_answer_idx (VStr "B")) ∉ realidx <$> earlier →
       ∃ rest,
         deduplicate_data (earlier ++ empty_answer_idx (VStr "B") :: later)
         = deduplicate_data earlier ++ empty_answer_idx (VStr "B") :: rest
         ∧ ∀ c,
             calculate_cost_from_token_usage
               (deduplicate_data
                  (earlier ++ empty_answer_idx (VStr "B") :: later))
               model_name
             = Ok c →
             ∃ avg_time,
               get_score_from_file
                 (earlier ++ empty_answer_idx (VStr "B") :: later) model_name
               = Ok (np_mul
                       (np_mean
                          (answers_of (deduplicate_data earlier)
                           ++ true :: answers_of rest)) 100,
                     length
                       (deduplicate_data
                          (earlier ++ empty_answer_idx (VStr "B") :: later)),
                     c, avg_time))
  ∧ (∀ other : record,
       ground_truth other ≠ get (answer other) →
       ∃ idx', answer_idx other = Some idx' ∧ truthy idx' = true
               ∧ ground_truth other = idx').
Proof.
  apply (ground_truth_falls_through (empty_answer_idx (VStr "B")) (VStr ""));
    reflexivity.
Defined.

(** The example end to end: the file with this one record has accuracy
    100 when ["B"] is predicted and 0 when ["A"] is. *)
Lemma empty_answer_idx_accuracy :
  get_score_from_file [empty_answer_idx (VStr "B")] "gpt-4o"
  = Ok (Num (1 / 1 * 100), 1%nat, (0 + 0.25) / 1, (0 + 1.5) / 1)%Q
  ∧ get_score_from_file [empty_answer_idx (VStr "A")] "gpt-4o"
    = Ok (Num (0 / 1 * 100), 1%nat, (0 + 0.25) / 1, (0 + 1.5) / 1)%Q.
Proof. split; reflexivity. Qed.

(** *** Cost *)

Lemma cost_loop_app (model : string) (total_cost : Q) (l1 l2 : list record) :
  cost_loop model total_cost (l1 ++ l2)
  = bind (cost_loop model total_cost l1) (λ t, cost_loop model t l2).
Proof.
  revert total_cost. induction l1 as [|item l1 IH]; intros total_cost; [done|].
  simpl. destruct (cost_step model total_cost item); [apply IH | done].
Qed.

Lemma cost_step_explicit (model : string) (total_cost : Q) (item : record)
    (c : Q) :
  cost item = Some c → cost_step model total_cost item = Ok (total_cost + c)%Q.
Proof. intros H. unfold cost_step. by rewrite H. Qed.

Lemma calculate_cost_nonempty (data : list record) (model : string) (t : Q) :
  data ≠ [] →
  cost_loop model 0 data = Ok t →
  calculate_cost_from_token_usage data model = Ok (t / len data)%Q.
Proof.
  intros Hne Ht. unfold calculate_cost_from_token_usage.
  rewrite Ht. cbn [bind].
  destruct data as [|item data]; [done|].
  change (0 <? length (item :: data))%nat with true. cbv iota.
  by apply truediv_len.
Qed.

(** On records that all have a [cost] the loop adds up the [cost]
    fields, in the order of the list. *)
Lemma cost_loop_explicit_sum (model : string) (data : list record) :
  Forall (λ item, is_Some (cost item)) data →
  ∀ total_cost,
    cost_loop model total_cost data
    = Ok (foldl (λ t item, (t + default 0 (cost item))%Q) total_cost data).
Proof.
  induction 1 as [|item data [c Hc] _ IH]; intros total_cost; simpl; [done|].
  rewrite (cost_step_explicit _ _ _ c) by done. simpl.
  by rewrite IH, Hc.
Qed.

(** C4. A record with an explicit [cost] adds exactly that value to the
    total, whatever the model, and its [token_usage] is not read.  In
    the loop of [calculate_cost_from_token_usage], whatever the
    [token_usage] of the record is, or when it has none, the records
    after it are added to the total before it plus its cost; the file
    with this record alone has that cost as its average; replacing or
    removing the [token_usage] changes nothing in the result for a list
    that contains the record; and for a file in which every record has a
    [cost], the result is the sum of the [cost] fields divided by the
    number of records. *)
Theorem explicit_cost_ignores_token_usage (model : string) (total_cost : Q)
    (item : record) (c : Q) :
  cost item = Some c →
  cost_step model total_cost item = Ok (total_cost + c)%Q
  ∧ (∀ u, cost_step model total_cost (with_token_usage item u)
          = cost_step model total_cost item)
  ∧ (∀ earlier later u,
       cost_loop model total_cost (earlier ++ with_token_usage item u :: later)
       = bind (cost_loop model total_cost earlier)
              (λ t, cost_loop model (t + c) later))
  ∧ (∀ u, calculate_cost_from_token_usage [with_token_usage item u] model
          = Ok ((0 + c) / 1)%Q)
  ∧ (∀ earlier later u,
       calculate_cost_from_token_usage
         (earlier ++ with_token_usage item u :: later) model
       = calculate_cost_from_token_usage (earlier ++ item :: later) model)
  ∧ (∀ data,
       data ≠ [] →
       Forall (λ item', is_Some (cost item')) data →
       calculate_cost_from_token_usage data model
       = Ok (foldl (λ t item', t + default 0 (cost item')) 0 data
             / len data)%Q).
Proof.
  intros Hc.
  assert (∀ t u, cost_step model t (with_token_usage item u)
                 = Ok (t + c)%Q) as Hstep.
  { intros t u. by apply cost_step_explicit. }
  split; [by apply cost_step_explicit|].
  split; [intros u; by rewrite Hstep, (cost_step_explicit _ _ _ c)|].
  split; [|split; [|split]].
  - intros earlier later u. rewrite cost_loop_app.
    destruct (cost_loop model total_cost earlier) as [t|]; [|done].
    cbn [bind cost_loop]. by rewrite Hstep.
  - intros u. unfold calculate_cost_from_token_usage.
    cbn [cost_loop]. by rewrite Hstep.
  - intros earlier later u. unfold calculate_cost_from_token_usage, len.
    rewrite !cost_loop_app, !length_app. simpl.
    destruct (cost_loop model 0 earlier); [|done]. simpl.
    by rewrite Hstep, (cost_step_explicit _ _ _ c).
  - intros data Hne Hall. apply calculate_cost_nonempty; [done|].
    by apply cost_loop_explicit_sum.
Qed.

Lemma explicit_cost_ignores_token_usage_witness :
  cost_step "gpt-4o" 0 inconsistent_record = Ok (0 + 0.5)%Q
  ∧ (∀ u, cost_step "gpt-4o" 0 (with_token_usage inconsistent_record u)
          = cost_step "gpt-4o" 0 inconsistent_record)
  ∧ (∀ earlier later u,
       cost_loop "gpt-4o" 0
         (earlier ++ with_token_usage inconsistent_record u :: later)
       = bind (cost_loop "gpt-4o" 0 earlier)
              (λ t, cost_loop "gpt-4o" (t + 0.5) later))
  ∧ (∀ u, calculate_cost_from_token_usage
            [with_token_usage inconsistent_record u] "gpt-4o"
          = Ok ((0 + 0.5) / 1)%Q)
  ∧ (∀ earlier later u,
       calculate_cost_from_token_usage
         (earlier ++ with_token_usage inconsistent_record u :: later) "gpt-4o"
       = calculate_cost_from_token_usage
           (earlier ++ inconsistent_record :: later) "gpt-4o")
  ∧ (∀ data,
       data ≠ [] →
       Forall (λ item', is_Some (cost item')) data →
       calculate_cost_from_token_usage data "gpt-4o"
       = Ok (foldl (λ t item', t + default 0 (cost item')) 0 data
             / len data)%Q).
Proof.
  apply (explicit_cost_ignores_token_usage "gpt-4o" 0 inconsistent_record 0.5).
  reflexivity.
Defined.

(** Without a [cost] field the token counts are read, for every model of
    the chain: the record must have a [token_usage]. *)
Lemma priced_model_reads_token_usage (model : string) (total_cost : Q)
    (item : record) :
  model ∈ priced_models → cost item = None → token_usage item = None →
  cost_step model total_cost item = Err (KeyError "token_usage").
Proof.
  intros Hin Hc Hu. unfold cost_step, add_token_cost. rewrite Hc, Hu.
  repeat (apply elem_of_cons in Hin as [->|Hin]; [done|]).
  by apply elem_of_nil in Hin.
Qed.

(** C8. For a model that the chain of comparisons has no price for, a
    record without a [cost] field leaves the running total as it is: the
    step returns normally and the total of a list is the total of the
    list without the record.  When no record has a [cost], the average
    is zero. *)
Theorem unpriced_model_contributes_zero (model : string) (total_cost : Q)
    (item : record) :
  model ∉ priced_models →
  cost item = None →
  cost_step model total_cost item = Ok total_cost
  ∧ (∀ earlier later,
       cost_loop model total_cost (earlier ++ item :: later)
       = cost_loop model total_cost (earlier ++ later))
  ∧ (∀ data, Forall (λ item', cost item' = None) data →
       ∃ q, calculate_cost_from_token_usage data model = Ok q ∧ (q == 0)%Q).
Proof.
  intros Hm Hc.
  assert (∀ t item', cost item' = None → cost_step model t item' = Ok t)
    as Hstep.
  { intros t item' Hc'. unfold cost_step. rewrite Hc'.
    repeat match goal with
    | |- context [String.eqb model ?name] =>
        destruct (String.eqb_spec model name) as [E|_];
        [exfalso; apply Hm; rewrite E; set_solver|]
    end.
    reflexivity. }
  split; [by apply Hstep|]. split.
  - intros earlier later. rewrite !cost_loop_app.
    destruct (cost_loop model total_cost earlier); [|done]. simpl.
    by rewrite Hstep.
  - intros data Hall.
    assert (∀ t, cost_loop model t data = Ok t) as Hloop.
    { induction Hall as [|item' data Hc' _ IH]; intros t; [done|].
      simpl. rewrite Hstep by done. apply IH. }
    unfold calculate_cost_from_token_usage. rewrite Hloop. simpl.
    destruct data as [|item' data]; simpl; [by exists 0%Q|].
    rewrite truediv_len by done. eexists; split; [done|].
    unfold Qdiv. apply Qmult_0_l.
Qed.

Lemma unpriced_model_contributes_zero_witness :
  cost_step "gpt-4" 0.75 token_record = Ok 0.75%Q
  ∧ (∀ earlier later,
       cost_loop "gpt-4" 0.75 (earlier ++ token_record :: later)
       = cost_loop "gpt-4" 0.75 (earlier ++ later))
  ∧ (∀ data, Forall (λ item', cost item' = None) data →
       ∃ q, calculate_cost_from_token_usage data "gpt-4" = Ok q ∧ (q == 0)%Q).
Proof.
  apply (unpriced_model_contributes_zero "gpt-4" 0.75 token_record).
  - apply (bool_decide_unpack _). vm_compute. exact I.
  - reflexivity.
Defined.

(** The two models of the decoder's vocabulary without a price. *)
Lemma unpriced_models :
  filter (λ model, model ∉ priced_models) MakeTable.model_prefixes
  = ["QwQ-32B"; "gpt-35-turbo"; "gpt-4"].
Proof. reflexivity. Qed.

(** *** Independence of the model *)

Lemma cost_loop_explicit (m1 m2 : string) (data : list record) :
  Forall (λ item, is_Some (cost item)) data →
  ∀ total_cost,
    cost_loop m1 total_cost data = cost_loop m2 total_cost data
    ∧ ∃ t, cost_loop m1 total_cost data = Ok t.
Proof.
  induction 1 as [|item data [c Hc] _ IH]; intros total_cost; simpl.
  - eauto.
  - rewrite !(cost_step_explicit _ _ _ c) by done. simpl. apply IH.
Qed.

(** C10. When every record of a non-empty list has an explicit [cost],
    [get_score_from_file] returns a score and the score is the same for
    any two model names. *)
Theorem score_independent_of_model (data : list record) (m1 m2 : string) :
  data ≠ [] →
  Forall (λ item, is_Some (cost item)) data →
  get_score_from_file data m1 = get_score_from_file data m2
  ∧ ∃ acc count avg_cost avg_time,
      get_score_from_file data m1 = Ok (acc, count, avg_cost, avg_time).
Proof.
  intros Hne Hall.
  assert (Forall (λ item, is_Some (cost item)) (deduplicate_data data))
    as Hdedup.
  { rewrite Forall_forall in Hall |- *. intros item Hin. apply Hall.
    eapply elem_of_sublist; [done | apply deduplicate_data_sublist]. }
  pose proof (deduplicate_data_nonempty _ Hne) as Hne'.
  destruct (cost_loop_explicit m1 m2 _ Hdedup 0%Q) as [Heq [t Ht]].
  unfold get_score_from_file.
  rewrite (calculate_cost_nonempty _ m1 t), (calculate_cost_nonempty _ m2 t),
    calculate_time_from_data_nonempty by congruence.
  split; [done|]. simpl. eauto 6.
Qed.

Lemma score_independent_of_model_witness :
  get_score_from_file [inconsistent_record; empty_answer_idx (VStr "A")] "gpt-4o"
  = get_score_from_file [inconsistent_record; empty_answer_idx (VStr "A")] "gpt-4"
  ∧ ∃ acc count avg_cost avg_time,
      get_score_from_file [inconsistent_record; empty_answer_idx (VStr "A")]
                          "gpt-4o"
      = Ok (acc, count, avg_cost, avg_time).
Proof.
  apply score_independent_of_model.
  - discriminate.
  - repeat constructor; by eexists.
Defined.

(** The hypothesis is needed: with token counts the model decides the
    price. *)
Lemma score_depends_on_model_without_cost :
  get_score_from_file [token_record] "gpt-4o"
  ≠ get_score_from_file [token_record] "gpt-4o-mini".
Proof. vm_compute. discriminate. Qed.

End Extractor.

(** * More on the filename decoder *)

Section DecoderStages.
Import PyStr MakeTable.

(** In a list sorted by decreasing length, the first candidate that
    passes a test is at least as long as every candidate that passes. *)
Lemma find_longest (f : string → bool) (l : list string) (x : string) :
  Sorted (λ a b, (String.length b ≤ String.length a)%nat) l →
  find f l = Some x →
  ∀ y, y ∈ l → f y = true → (String.length y ≤ String.length x)%nat.
Proof.
  intros Hs. apply Sorted_StronglySorted in Hs; [|intros a b c; lia].
  induction Hs as [|a l _ IH Hall]; simpl; [done|].
  destruct (f a) eqn:Ea.
  - intros [= <-] y [->|Hy]%elem_of_cons _; [done|].
    by apply (proj1 (Forall_forall _ _) Hall).
  - intros Hf y [->|Hy]%elem_of_cons Hy'; [congruence | by apply IH].
Qed.

(** Of two prefixes of a string the shorter is a prefix of the longer. *)
Lemma startswith_shorter (s p q : string) :
  startswith s p = true → startswith s q = true →
  (String.length p ≤ String.length q)%nat →
  startswith q p = true.
Proof.
  revert s q. induction p as [|a p IH]; intros s q; [by destruct q|].
  destruct s as [|c s]; [done|]. destruct q as [|b q]; simpl; [lia|].
  rewrite !andb_true_iff.
  intros [Hac Hp] [Hbc Hq] Hlen.
  apply Ascii.eqb_eq in Hac, Hbc. subst.
  split; [apply Ascii.eqb_refl | apply (IH s q); [done|done|lia]].
Qed.

Lemma lstrip_no_leading_dash (s : string) :
  startswith (lstrip s "-") "-" = false.
Proof.
  induction s as [|c s IH]; [done|]. cbn [lstrip char_in].
  rewrite orb_false_r. destruct (Ascii.eqb c _) eqn:E; [done|].
  cbn [startswith]. apply andb_false_iff. left.
  apply Ascii.eqb_neq. apply Ascii.eqb_neq in E. congruence.
Qed.

(** X3. The model stage takes the longest model name the file name starts
    with: the name found is in the vocabulary and is a prefix of the file
    name, every other model name that is a prefix of the file name is a
    prefix of the one found, and what is left has no leading dash. *)
Theorem model_stage_longest_prefix (name model remaining : string) :
  model_stage name = Some (model, remaining) →
  model ∈ model_prefixes
  ∧ startswith name model = true
  ∧ (∀ prefix, prefix ∈ model_prefixes → startswith name prefix = true →
       startswith model prefix = true)
  ∧ remaining = lstrip (drop (String.length model) name) "-"
  ∧ startswith remaining "-" = false.
Proof.
  unfold model_stage. destruct (find _ _) as [m|] eqn:Hf; [|done].
  intros [= <- <-].
  pose proof (find_is_match _ _ _ Hf) as [Hin Hm]. cbv beta in Hm.
  rewrite elem_of_sorted_len_reverse in Hin.
  split; [done|]. split; [done|]. split; [|split; [done|]].
  - intros p Hp Hpre. apply (startswith_shorter name); [done|done|].
    eapply (find_longest _ _ _ (sorted_len_reverse_sorted _) Hf); [|done].
    by apply elem_of_sorted_len_reverse.
  - apply lstrip_no_leading_dash.
Qed.

Lemma model_stage_longest_prefix_witness :
  "gpt-4o-mini" ∈ model_prefixes
  ∧ startswith "gpt-4o-mini--medqa-test" "gpt-4o-mini" = true
  ∧ (∀ prefix, prefix ∈ model_prefixes →
       startswith "gpt-4o-mini--medqa-test" prefix = true →
       startswith "gpt-4o-mini" prefix = true)
  ∧ "medqa-test"
    = lstrip (drop (String.length "gpt-4o-mini") "gpt-4o-mini--medqa-test") "-"
  ∧ startswith "medqa-test" "-" = false.
Proof.
  apply (model_stage_longest_prefix "gpt-4o-mini--medqa-test"). reflexivity.
Defined.

(** X4. The data set stage takes a longest data set name that occurs in the
    remainder: no name of the vocabulary that occurs in it is longer than
    the one found. *)
Theorem dataset_stage_longest (remaining dataset remaining' : string) :
  dataset_stage remaining = Some (dataset, remaining') →
  dataset ∈ datasets
  ∧ contains remaining dataset = true
  ∧ (∀ ds, ds ∈ datasets → contains remaining ds = true →
       (String.length ds ≤ String.length dataset)%nat)
  ∧ remaining' = strip (replace_first remaining dataset "") "-".
Proof.
  unfold dataset_stage. destruct (find _ _) as [d|] eqn:Hf; [|done].
  intros [= <- <-].
  pose proof (find_is_match _ _ _ Hf) as [Hin Hd]. cbv beta in Hd.
  rewrite elem_of_sorted_len_reverse in Hin.
  split; [done|]. split; [done|]. split; [|done].
  intros ds Hds Hc.
  eapply (find_longest _ _ _ (sorted_len_reverse_sorted _) Hf); [|done].
  by apply elem_of_sorted_len_reverse.
Qed.

Lemma dataset_stage_longest_witness :
  "pubmedqa" ∈ datasets
  ∧ contains "pubmedqa-test_hard-cot" "pubmedqa" = true
  ∧ (∀ ds, ds ∈ datasets → contains "pubmedqa-test_hard-cot" ds = true →
       (String.length ds ≤ String.length "pubmedqa")%nat)
  ∧ "test_hard-cot" = strip (replace_first "pubmedqa-test_hard-cot" "pubmedqa" "") "-".
Proof. apply (dataset_stage_longest "pubmedqa-test_hard-cot"). reflexivity. Defined.

End DecoderStages.

Section DecoderShape.
Import PyStr MakeTable.

(** *** Stripping *)

Lemma rstrip_idempotent (s chars : string) :
  rstrip (rstrip s chars) chars = rstrip s chars.
Proof.
  induction s as [|c s IH]; [done|]. cbn [rstrip].
  destruct (is_empty (rstrip s chars) && char_in c chars) eqn:E; [done|].
  cbn [rstrip]. by rewrite IH, E.
Qed.

Lemma lstrip_fixed (s chars : string) :
  lstrip (lstrip s chars) chars = lstrip s chars.
Proof.
  induction s as [|c s IH]; [done|]. cbn [lstrip].
  destruct (char_in c chars) eqn:E; [done|]. cbn [lstrip]. by rewrite E.
Qed.

(** Stripping on the right leaves a string without a leading character of
    [chars] as such a string. *)
Lemma lstrip_rstrip (s chars : string) :
  lstrip s chars = s → lstrip (rstrip s chars) chars = rstrip s chars.
Proof.
  destruct s as [|c s]; [done|]. cbn [lstrip rstrip].
  destruct (char_in c chars) eqn:E.
  - intros H. exfalso.
    assert (String.length (lstrip s chars) ≤ String.length s)%nat as Hle.
    { clear. induction s as [|d s IH]; simpl; [done|].
      destruct (char_in d chars); simpl; lia. }
    rewrite H in Hle. simpl in Hle. lia.
  - intros _. rewrite andb_false_r. cbn [lstrip]. by rewrite E.
Qed.

Lemma strip_idempotent (s chars : string) :
  strip (strip s chars) chars = strip s chars.
Proof.
  unfold strip.
  rewrite (lstrip_rstrip (lstrip s chars)) by apply lstrip_fixed.
  apply rstrip_idempotent.
Qed.

(** *** The shape of a decoded name *)

(** X1. [parse_filename] returns nothing or everything: either all four
    fields are [None], or the model, the data set and the split are names
    of the three vocabularies and the method is a non-empty string
    without a dash at either end. *)
Theorem parse_filename_all_or_nothing (filename : string) :
  parse_filename filename = undecodable
  ∨ ∃ model dataset split method,
      parse_filename filename
      = (Some model, Some dataset, Some split, Some method)
      ∧ model ∈ model_prefixes
      ∧ dataset ∈ datasets
      ∧ split ∈ splits
      ∧ method ≠ ""
      ∧ strip method "-" = method.
Proof.
  unfold parse_filename.
  destruct (model_stage _) as [[model rem]|] eqn:Hm; [|by left].
  destruct (is_empty model); [by left|].
  destruct (dataset_stage rem) as [[ds rem']|] eqn:Hd; [|by left].
  destruct (is_empty ds); [by left|].
  destruct (split_stage rem') as [[sp rem'']|] eqn:Hs; [|by left].
  destruct (is_empty sp); [by left|].
  right. exists model, ds, sp. eexists. split; [done|].
  apply model_stage_Some in Hm as [? _].
  apply dataset_stage_Some in Hd as [? _].
  pose proof (split_stage_Some _ _ _ Hs) as [? _].
  do 3 (split; [done|]).
  destruct (is_empty rem'') eqn:E; [done|].
  split; [by destruct rem''|].
  unfold split_stage in Hs. destruct (find _ _); [|done].
  injection Hs as _ <-. apply strip_idempotent.
Qed.

(** *** Names without a method *)

Lemma parse_filename_no_method :
  Forall (λ model, Forall (λ dataset, Forall (λ split,
    parse_filename (model ++ "-" ++ dataset ++ "-" ++ split ++ ".json")
    = (Some model, Some dataset, Some split, Some "zero_shot"))
  splits) datasets) model_prefixes.
Proof. apply (bool_decide_unpack _). vm_compute. exact I. Qed.

(** X5. A file name [<model>-<dataset>-<split>.json] without a method decodes
    to the default method [zero_shot], which is displayed as
    [Zero-shot]. *)
Theorem parse_filename_default_method (model dataset split : string) :
  model ∈ model_prefixes →
  dataset ∈ datasets →
  split ∈ splits →
  parse_filename (model ++ "-" ++ dataset ++ "-" ++ split ++ ".json")
  = (Some model, Some dataset, Some split, Some "zero_shot")
  ∧ parse_method "zero_shot" = "Zero-shot".
Proof.
  intros Hm Hd Hs. split; [|done].
  pose proof parse_filename_no_method as H.
  rewrite Forall_forall in H. specialize (H _ Hm).
  rewrite Forall_forall in H. specialize (H _ Hd).
  rewrite Forall_forall in H. exact (H _ Hs).
Qed.

Lemma parse_filename_default_method_witness :
  parse_filename "o3-mini-medxpertqa-r-test_hard.json"
  = (Some "o3-mini", Some "medxpertqa-r", Some "test_hard", Some "zero_shot")
  ∧ parse_method "zero_shot" = "Zero-shot".
Proof.
  apply (parse_filename_default_method "o3-mini" "medxpertqa-r" "test_hard");
    apply (bool_decide_unpack _); vm_compute; exact I.
Defined.

(** *** The normalizer *)

(** X7. Normalizing twice is normalizing once: no display name is itself a
    raw token of the table. *)
Theorem parse_method_idempotent (method : string) :
  parse_method (parse_method method) = parse_method method.
Proof.
  destruct (decide (method ∈ method_keys)) as [Hin|Hout].
  - repeat (apply elem_of_cons in Hin as [->|Hin]; [reflexivity|]).
    by apply elem_of_nil in Hin.
  - assert (parse_method method = method) as H; [|by rewrite !H].
    unfold parse_method.
    repeat match goal with
    | |- context [String.eqb method ?key] =>
        destruct (String.eqb_spec method key) as [E|_];
        [exfalso; apply Hout; rewrite E; set_solver|]
    end.
    reflexivity.
Qed.

End DecoderShape.

(** * The decoder on arbitrary method tokens *)

Section DecoderRoundTrip.
Import PyStr MakeTable.

Lemma append_cons (c : Ascii.ascii) (a b : string) :
  String c a ++ b = String c (a ++ b).
Proof. reflexivity. Qed.

Lemma append_assoc (a b c : string) : (a ++ b) ++ c = a ++ b ++ c.
Proof.
  induction a as [|x a IH]; [done|]. by rewrite !append_cons, IH.
Qed.

Lemma startswith_empty (s : string) : startswith s "" = true.
Proof. by destruct s. Qed.

(** A prefix of [a] is a prefix of [a ++ t]. *)
Lemma startswith_app_true (a t p : string) :
  startswith a p = true → startswith (a ++ t) p = true.
Proof.
  revert a. induction p as [|c p IH]; intros a; [by rewrite !startswith_empty|].
  destruct a as [|d a]; [done|]. rewrite append_cons. cbn [startswith].
  rewrite !andb_true_iff. intros [? ?]. split; [done|]. by apply IH.
Qed.

(** Unless [a] is a proper prefix of [p], whether [a ++ t] starts with
    [p] is decided by [a]. *)
Lemma startswith_app_decided (a t p : string) :
  startswith p a && (String.length a <? String.length p)%nat = false →
  startswith (a ++ t) p = startswith a p.
Proof.
  revert p. induction a as [|c a IH]; intros p H.
  - destruct p as [|d p]; [by rewrite !startswith_empty|].
    by rewrite startswith_empty in H.
  - destruct p as [|d p]; [done|]. rewrite append_cons. cbn [startswith] in *.
    destruct (Ascii.eqb_spec d c) as [->|Hne]; [|done].
    rewrite Ascii.eqb_refl in H. simpl in *. by apply IH.
Qed.

Lemma contains_empty (s : string) : contains s "" = true.
Proof. destruct s; cbn [contains]; by rewrite startswith_empty. Qed.

Lemma contains_app_l (a t sub : string) :
  contains a sub = true → contains (a ++ t) sub = true.
Proof.
  induction a as [|c a IH].
  - cbn [contains]. rewrite orb_false_r.
    destruct sub; [by rewrite contains_empty | done].
  - rewrite append_cons. cbn [contains]. rewrite !orb_true_iff.
    intros [H|H]; [left | right; by apply IH].
    by apply (startswith_app_true (String c a)).
Qed.

(** An occurrence that cannot straddle is in one of the two parts. *)
Lemma contains_app_split (a t sub : string) :
  no_straddle a sub = true →
  contains (a ++ t) sub = contains a sub || contains t sub.
Proof.
  induction a as [|c a IH]; intros H.
  - cbn [contains]. rewrite orb_false_r.
    destruct sub; [by rewrite contains_empty | done].
  - cbn [no_straddle] in H. apply andb_true_iff in H as [H1 H2].
    apply negb_true_iff in H1.
    rewrite append_cons. cbn [contains]. rewrite IH by done.
    rewrite <- append_cons, startswith_app_decided by done.
    by rewrite orb_assoc.
Qed.

Lemma drop_app (n : nat) (a t : string) :
  (n ≤ String.length a)%nat → drop n (a ++ t) = drop n a ++ t.
Proof.
  revert a. induction n as [|n IH]; intros a H; [by destruct a|].
  destruct a as [|c a]; simpl in H; [lia|].
  rewrite append_cons. cbn [drop]. apply IH. lia.
Qed.

Lemma lstrip_app (a t chars : string) :
  is_empty (lstrip a chars) = false →
  lstrip (a ++ t) chars = lstrip a chars ++ t.
Proof.
  induction a as [|c a IH]; [done|]. rewrite append_cons. cbn [lstrip].
  destruct (char_in c chars); [done|]. intros _. by rewrite append_cons.
Qed.

Lemma rstrip_app (a t chars : string) :
  rstrip t chars = t → is_empty t = false →
  rstrip (a ++ t) chars = a ++ t.
Proof.
  intros Ht Hne. induction a as [|c a IH]; [done|].
  rewrite append_cons. cbn [rstrip]. rewrite IH.
  by destruct a, t.
Qed.

(** A token that [strip] leaves alone is left alone by both halves. *)
Lemma strip_fixed (t chars : string) :
  strip t chars = t → lstrip t chars = t ∧ rstrip t chars = t.
Proof.
  unfold strip. intros H.
  assert (lstrip t chars = t) as Hl.
  { rewrite <- H at 1. rewrite lstrip_rstrip by apply lstrip_fixed. done. }
  by rewrite Hl in H.
Qed.

Lemma replace_first_prefix (s old new : string) :
  startswith s old = true →
  replace_first s old new = new ++ drop (String.length old) s.
Proof. intros H. destruct s; cbn [replace_first]; by rewrite H. Qed.

(** Removing the extension: [".json"] cannot overlap itself, so the only
    occurrence in [x ++ ".json"] that [x] does not contain is the last. *)
Lemma startswith_json_boundary (x : string) :
  x ≠ "" → startswith (x ++ ".json") ".json" = startswith x ".json".
Proof.
  intros Hx. destruct x as [|a [|b [|c [|d [|e x]]]]]; [done|..];
    rewrite ?append_cons; cbn [startswith]; rewrite ?startswith_empty;
    reflexivity.
Qed.

Lemma replace_json (x : string) :
  contains x ".json" = false → replace (x ++ ".json") ".json" "" = x.
Proof.
  unfold replace. cbn [is_empty]. induction x as [|c x IH]; intros H.
  - reflexivity.
  - cbn [contains] in H. apply orb_false_iff in H as [H1 H2].
    rewrite append_cons. cbn [replace_from].
    rewrite <- append_cons, startswith_json_boundary, H1 by done.
    by rewrite IH.
Qed.

Lemma lstrip_app_all (a t chars : string) :
  is_empty (lstrip a chars) = true →
  lstrip (a ++ t) chars = lstrip t chars.
Proof.
  induction a as [|c a IH]; [done|]. rewrite append_cons. cbn [lstrip].
  by destruct (char_in c chars).
Qed.

(** Stripping [b ++ t] for a token [t] that has nothing to strip. *)
Lemma strip_app (b t chars : string) :
  strip t chars = t → is_empty t = false →
  strip (b ++ t) chars = lstrip b chars ++ t.
Proof.
  intros Ht Hne. pose proof (strip_fixed _ _ Ht) as [Hl Hr]. unfold strip.
  destruct (is_empty (lstrip b chars)) eqn:E.
  - rewrite lstrip_app_all, Hl, Hr by done.
    by destruct (lstrip b chars).
  - rewrite lstrip_app by done. by apply rstrip_app.
Qed.

Lemma find_ext_Forall (f g : string → bool) (l : list string) :
  Forall (λ x, f x = g x) l → find f l = find g l.
Proof. induction 1 as [|x l Hx _ IH]; simpl; [done|]. by rewrite Hx, IH. Qed.

(** *** The stages on a name with an arbitrary last token *)

Lemma extension_stage (a t : string) :
  extension_ok a = true →
  contains t ".json" = false →
  replace ((a ++ t) ++ ".json") ".json" "" = a ++ t.
Proof.
  unfold extension_ok. intros [Ha Hs]%andb_true_iff Ht.
  apply negb_true_iff in Ha. apply replace_json.
  by rewrite contains_app_split, Ha, Ht.
Qed.

Lemma model_stage_app (model a a' t : string) :
  model_ok model a a' = true →
  model_stage (a ++ t) = Some (model, a' ++ t).
Proof.
  unfold model_ok, model_stage.
  intros [[[[Hpre Hfind]%andb_true_iff Hlen]%andb_true_iff
            Hrest]%andb_true_iff Hne]%andb_true_iff.
  apply bool_decide_eq_true in Hfind, Hrest.
  apply Nat.leb_le in Hlen. apply negb_true_iff in Hne.
  rewrite (find_ext_Forall _ (λ prefix, startswith a prefix)).
  - rewrite Hfind, drop_app, lstrip_app, Hrest by (by rewrite ?Hrest).
    done.
  - apply Forall_forall. intros prefix Hin. apply startswith_app_decided.
    rewrite forallb_forall in Hpre. apply negb_true_iff, Hpre.
    by apply list_elem_of_In.
Qed.

Lemma containment_stage (cands : list string) (x a a' t : string) :
  containment_ok cands x a a' = true →
  Forall (λ c, contains a c = false → contains t c = false) cands →
  strip t "-" = t →
  is_empty t = false →
  find (λ c, contains (a ++ t) c) cands = Some x
  ∧ strip (replace_first (a ++ t) x "") "-" = a' ++ t.
Proof.
  unfold containment_ok.
  intros [[[[Hin Hfind]%andb_true_iff Hstart]%andb_true_iff
            Hlen]%andb_true_iff Hrest]%andb_true_iff Hall Ht Hne.
  apply bool_decide_eq_true in Hfind, Hrest. apply Nat.leb_le in Hlen.
  split.
  - rewrite <- Hfind. apply find_ext_Forall.
    rewrite forallb_forall in Hin. rewrite Forall_forall in Hall |- *.
    intros c Hc. specialize (Hin c (proj1 (list_elem_of_In _ _) Hc)).
    destruct (contains a c) eqn:E; [by apply contains_app_l|].
    simpl in Hin. by rewrite contains_app_split, E, Hall.
  - rewrite replace_first_prefix by by apply startswith_app_true.
    change ("" ++ ?s) with s.
    by rewrite drop_app, strip_app, Hrest.
Qed.

(** Every triple of the vocabularies separates. *)
Lemma vocabulary_separates :
  Forall (λ model, Forall (λ dataset, Forall (λ split,
    separates model dataset split = true) splits) datasets) model_prefixes.
Proof. apply (bool_decide_unpack _). vm_compute. exact I. Qed.

(** X6. The round trip for any method token.  A file name
    [<model>-<dataset>-<split>-<method>.json] over the three vocabularies
    is decoded to its four components for every method token that is not
    empty, has no dash at either end and contains neither [".json"], nor
    a data set name, nor ["test_hard"]. *)
Theorem parse_filename_roundtrip_any_method
    (model dataset split method : string) :
  model ∈ model_prefixes →
  dataset ∈ datasets →
  split ∈ splits →
  method ≠ "" →
  strip method "-" = method →
  contains method ".json" = false →
  Forall (λ ds, contains method ds = false) datasets →
  contains method "test_hard" = false →
  parse_filename (result_filename model dataset split method)
  = (Some model, Some dataset, Some split, Some method).
Proof.
  intros Hm Hd Hs Hne Hstrip Hjson Hds Hhard.
  assert (is_empty method = false) as Hne' by by destruct method.
  pose proof vocabulary_separates as H.
  rewrite Forall_forall in H. specialize (H _ Hm).
  rewrite Forall_forall in H. specialize (H _ Hd).
  rewrite Forall_forall in H. specialize (H _ Hs).
  unfold separates in H.
  apply andb_true_iff in H as [[[[[H0 H1]%andb_true_iff H2]%andb_true_iff
    H3]%andb_true_iff H4]%andb_true_iff H5].
  apply negb_true_iff, orb_false_iff in H5 as [[Em Ed]%orb_false_iff Es].
  unfold parse_filename, result_filename.
  replace (model ++ "-" ++ dataset ++ "-" ++ split ++ "-" ++ method ++ ".json")
    with (((model ++ "-" ++ dataset ++ "-" ++ split ++ "-") ++ method) ++ ".json")
    by by rewrite !append_assoc.
  rewrite (extension_stage _ _ H0 Hjson), (model_stage_app _ _ _ _ H1), Em.
  destruct (containment_stage _ _ _ _ method H2) as [Hf2 Hr2]; [|done|done|].
  { apply Forall_forall. intros c Hc _.
    rewrite elem_of_sorted_len_reverse in Hc.
    by apply (proj1 (Forall_forall _ _) Hds). }
  destruct (containment_stage _ _ _ _ method H3) as [Hf3 Hr3]; [|done|done|].
  { repeat constructor; [done|]. by rewrite H4. }
  unfold dataset_stage, split_stage.
  rewrite Hf2, Hr2, Ed, Hf3, Hr3, Es. change ("" ++ method) with method.
  by rewrite Hne'.
Qed.

(** A method token that the normalizer does not know. *)
Lemma parse_filename_roundtrip_any_method_witness :
  parse_filename "gpt-4o-medbullets-test_hard-debate_v2-3.json"
  = (Some "gpt-4o", Some "medbullets", Some "test_hard", Some "debate_v2-3").
Proof.
  apply (parse_filename_roundtrip_any_method
           "gpt-4o" "medbullets" "test_hard" "debate_v2-3");
    first [ discriminate | reflexivity
          | apply (bool_decide_unpack _); vm_compute; exact I ].
Defined.

(** The conditions on the method cannot be dropped: a method that
    contains a longer data set name takes the place of the data set. *)
Lemma method_with_dataset_name :
  parse_filename (result_filename "gpt-4o" "medqa" "test" "pubmedqa_v2")
  = (Some "gpt-4o", Some "pubmedqa", Some "test", Some "medqa--_v2").
Proof. reflexivity. Qed.

End DecoderRoundTrip.

(** * More on the record extractor *)

Section ExtractorMore.
Import Utils.
Local Open Scope list_scope.

(** *** Deduplication of lists without repeats and with late repeats *)

Lemma deduplicate_data_NoDup_id (data : list record) :
  NoDup (realidx <$> data) → deduplicate_data data = data.
Proof.
  induction data as [|item data IH] using rev_ind; [done|].
  rewrite fmap_app, NoDup_app. intros (Hnd & Hnew & _).
  rewrite deduplicate_data_snoc, IH by done.
  rewrite decide_False; [done|].
  intros Hin. apply (Hnew _ Hin). simpl. apply elem_of_cons. by left.
Qed.

(** X8. Deduplicating a deduplicated list changes nothing. *)
Theorem deduplicate_data_idempotent (data : list record) :
  deduplicate_data (deduplicate_data data) = deduplicate_data data.
Proof. apply deduplicate_data_NoDup_id, deduplicate_data_NoDup. Qed.

Lemma deduplicate_data_repeats (data extra : list record) :
  Forall (λ item, realidx item ∈ realidx <$> data) extra →
  deduplicate_data (data ++ extra) = deduplicate_data data.
Proof.
  induction extra as [|item extra IH] using rev_ind; intros H.
  - by rewrite app_nil_r.
  - apply Forall_app in H as [H1 H2].
    apply (proj1 (Forall_singleton _ _)) in H2.
    rewrite app_assoc, deduplicate_data_snoc, IH by done.
    rewrite decide_True; [apply app_nil_r|].
    rewrite fmap_app, elem_of_app. left. exact H2.
Qed.

(** X9. Records appended to a file whose [realidx] is already in the file
    (retries, reruns) change nothing in the score of the file, whatever
    their answers, times and costs, and even when they lack the fields
    the cost is computed from. *)
Theorem get_score_from_file_ignores_repeats (data extra : list record)
    (model_name : string) :
  Forall (λ item, realidx item ∈ realidx <$> data) extra →
  get_score_from_file (data ++ extra) model_name
  = get_score_from_file data model_name.
Proof.
  intros H. unfold get_score_from_file.
  by rewrite deduplicate_data_repeats.
Qed.

Lemma get_score_from_file_ignores_repeats_witness :
  get_score_from_file
    ([token_record] ++ [with_token_usage token_record None]) "gpt-4o"
  = get_score_from_file [token_record] "gpt-4o".
Proof.
  apply get_score_from_file_ignores_repeats.
  apply (bool_decide_unpack _). vm_compute. exact I.
Defined.

(** *** Bounds on the score *)

Lemma get_score_from_file_nonempty (data : list record) (model_name : string)
    (r : npfloat * nat * Q * Q) :
  get_score_from_file data model_name = Ok r → data ≠ [].
Proof. by intros H ->. Qed.

Lemma np_mean_bounds (answers : list bool) :
  answers ≠ [] →
  ∃ q, np_mul (np_mean answers) 100 = Num q ∧ (0 <= q)%Q ∧ (q <= 100)%Q.
Proof.
  destruct answers as [|b answers]; [done|]. intros _.
  eexists. split; [reflexivity|].
  pose proof (length_filter (λ b, b = true) (b :: answers)) as Hle.
  unfold len. set (k := length (filter _ _)) in *.
  set (n := length (b :: answers)) in *.
  assert (0 < n)%nat as Hn by (subst n; simpl; lia).
  assert (0 < inject_Z (Z.of_nat n))%Q as Hpos.
  { unfold Qlt. simpl. lia. }
  assert (0 <= inject_Z (Z.of_nat k) / inject_Z (Z.of_nat n))%Q as H0.
  { apply Qle_shift_div_l; [done|]. rewrite Qmult_0_l.
    unfold Qle. simpl. lia. }
  assert (inject_Z (Z.of_nat k) / inject_Z (Z.of_nat n) <= 1)%Q as H1.
  { apply Qle_shift_div_r; [done|]. rewrite Qmult_1_l.
    unfold Qle. simpl. lia. }
  split.
  - apply Qmult_le_0_compat; [done | discriminate].
  - change 100%Q with (1 * 100)%Q at 2.
    apply Qmult_le_compat_r; [done | discriminate].
Qed.

(** X10. When [get_score_from_file] returns, the accuracy is a number between
    0 and 100 (never [nan]). *)
Theorem accuracy_bounds (data : list record) (model_name : string)
    (acc : npfloat) (count : nat) (avg_cost avg_time : Q) :
  get_score_from_file data model_name = Ok (acc, count, avg_cost, avg_time) →
  ∃ q, acc = Num q ∧ (0 <= q)%Q ∧ (q <= 100)%Q.
Proof.
  intros H. pose proof (get_score_from_file_nonempty _ _ _ H) as Hne.
  apply get_score_from_file_accuracy in H as [-> _].
  apply np_mean_bounds. unfold answers_of.
  apply deduplicate_data_nonempty in Hne.
  by destruct (deduplicate_data data).
Qed.

Lemma accuracy_bounds_witness :
  ∃ q, Num (1 / 1 * 100) = Num q ∧ (0 <= q)%Q ∧ (q <= 100)%Q.
Proof.
  apply (accuracy_bounds [empty_answer_idx (VStr "B")] "gpt-4o"
           _ 1%nat ((0 + 0.25) / 1) ((0 + 1.5) / 1))%Q.
  reflexivity.
Defined.

(** X11. When [get_score_from_file] returns, the count is the number of
    distinct [realidx] of the file: at least one and at most the number
    of records. *)
Theorem count_distinct_realidx (data : list record) (model_name : string)
    (acc : npfloat) (count : nat) (avg_cost avg_time : Q) :
  get_score_from_file data model_name = Ok (acc, count, avg_cost, avg_time) →
  count = size (list_to_set (realidx <$> data) : gset pykey)
  ∧ (1 ≤ count ≤ length data)%nat.
Proof.
  intros H. pose proof (get_score_from_file_nonempty _ _ _ H) as Hne.
  apply get_score_from_file_accuracy in H as [_ ->].
  split.
  - transitivity
      (size (list_to_set (realidx <$> deduplicate_data data) : gset pykey)).
    + rewrite size_list_to_set by apply deduplicate_data_NoDup.
      by rewrite length_fmap.
    + f_equal. apply set_eq. intros k.
      by rewrite !elem_of_list_to_set, deduplicate_data_keys.
  - split; [|apply sublist_length, deduplicate_data_sublist].
    apply deduplicate_data_nonempty in Hne.
    destruct (deduplicate_data data); simpl; [done | lia].
Qed.

Lemma count_distinct_realidx_witness :
  2%nat = size (list_to_set
                  (realidx <$> [token_record; inconsistent_record; token_record])
                : gset pykey)
  ∧ (1 ≤ 2 ≤ length [token_record; inconsistent_record; token_record])%nat.
Proof.
  apply (count_distinct_realidx
           [token_record; inconsistent_record; token_record] "gpt-4"
           (Num (1 / 2 * 100)) 2%nat ((0 + 0.5) / 2) ((0 + 3 + 2) / 2))%Q.
  reflexivity.
Defined.

(** *** Success and failure *)

Lemma cost_step_outcome (model : string) (total_cost : Q) (item : record) :
  match cost_step model total_cost item with
  | Ok _ => lacks_tokens model item = false
  | Err e => e = KeyError "token_usage" ∧ lacks_tokens model item = true
  end.
Proof.
  unfold cost_step, lacks_tokens, add_token_cost, getitem.
  destruct (cost item) as [c|]; [done|].
  destruct (token_usage item) as [u|].
  - repeat match goal with
    | |- context [String.eqb model ?name] =>
        destruct (String.eqb model name); simpl; try done
    end.
  - repeat match goal with
    | |- context [String.eqb model ?name] =>
        destruct (String.eqb_spec model name) as [->|?]; simpl; [done|]
    end.
    apply bool_decide_eq_false. unfold priced_models.
    rewrite !elem_of_cons, elem_of_nil. tauto.
Qed.

Lemma cost_loop_outcome (model : string) (data : list record) :
  ∀ total_cost,
    match cost_loop model total_cost data with
    | Ok _ => existsb (lacks_tokens model) data = false
    | Err e => e = KeyError "token_usage"
               ∧ existsb (lacks_tokens model) data = true
    end.
Proof.
  induction data as [|item data IH]; intros total_cost; [done|].
  cbn [cost_loop existsb].
  pose proof (cost_step_outcome model total_cost item) as Hstep.
  destruct (cost_step model total_cost item) as [t|e]; cbn [bind].
  - rewrite Hstep. apply IH.
  - destruct Hstep as [-> ->]. done.
Qed.

(** On records that have the keys [realidx], [predicted_answer] and
    [time_elapsed] and token counts in every [token_usage], as the
    records of [Utils] do by their type: [get_score_from_file] returns a
    score exactly when the file is not empty and a cost can be computed
    for every record that deduplication keeps, raises [ZeroDivisionError]
    exactly when the file is empty, and raises [KeyError], for
    [token_usage], exactly when a record that is kept has neither [cost]
    nor [token_usage] while the model has a price.  The other missing
    keys are in [raw_get_score_from_file_outcome]. *)
Theorem get_score_from_file_outcome (data : list record)
    (model_name : string) :
  match get_score_from_file data model_name with
  | Ok _ =>
      data ≠ []
      ∧ existsb (lacks_tokens model_name) (deduplicate_data data) = false
  | Err ZeroDivisionError => data = []
  | Err (KeyError key) =>
      key = "token_usage"
      ∧ existsb (lacks_tokens model_name) (deduplicate_data data) = true
  end.
Proof.
  destruct data as [|item data]; [done|].
  assert (item :: data ≠ []) as Hne by done.
  apply deduplicate_data_nonempty in Hne. revert Hne.
  unfold get_score_from_file, calculate_cost_from_token_usage.
  generalize (deduplicate_data (item :: data)). intros dedup Hne.
  pose proof (cost_loop_outcome model_name dedup 0%Q) as Hloop.
  destruct (cost_loop model_name 0 dedup) as [t|e]; cbn [bind].
  - destruct dedup as [|x dedup]; [done|].
    change (0 <? length (x :: dedup))%nat with true. cbv iota.
    rewrite truediv_len by done. cbn [bind].
    rewrite calculate_time_from_data_nonempty by done. by cbn [bind].
  - by destruct Hloop as [-> ?].
Qed.

(** A repeated record that lacks both fields does no harm, a first
    occurrence does. *)
Lemma lacks_tokens_first_occurrence :
  get_score_from_file [with_token_usage token_record None; token_record]
                      "gpt-4o"
  = Err (KeyError "token_usage")
  ∧ ∃ r, get_score_from_file
           [token_record; with_token_usage token_record None] "gpt-4o"
         = Ok r.
Proof. split; [reflexivity | by eexists]. Qed.

(** *** Signs *)

Lemma add_token_cost_nonnegative (total_cost : Q) (item : record)
    (p_in p_out t : Q) :
  nonnegative_record item →
  (0 <= total_cost)%Q → (0 <= p_in)%Q → (0 <= p_out)%Q →
  add_token_cost total_cost item p_in p_out = Ok t → (0 <= t)%Q.
Proof.
  intros (_ & _ & Hu) Ht Hin Hout. unfold add_token_cost, getitem.
  destruct (token_usage item) as [u|]; [|done]. cbn [bind]. intros [= <-].
  destruct (Hu u eq_refl) as [Hp Hc].
  assert (∀ z p, (0 ≤ z)%Z → (0 <= p)%Q → (0 <= inject_Z z * p / 1000000)%Q)
    as Hterm.
  { intros z p Hz Hp'. apply Qle_shift_div_l; [done|]. rewrite Qmult_0_l.
    apply Qmult_le_0_compat; [|done]. unfold Qle. simpl. lia. }
  rewrite <- (Qplus_0_l 0). apply Qplus_le_compat; [done|].
  rewrite <- (Qplus_0_l 0). apply Qplus_le_compat; by apply Hterm.
Qed.

Lemma cost_step_nonnegative (model : string) (total_cost : Q) (item : record)
    (t : Q) :
  nonnegative_record item → (0 <= total_cost)%Q →
  cost_step model total_cost item = Ok t → (0 <= t)%Q.
Proof.
  intros Hitem Ht. unfold cost_step.
  destruct (cost item) as [c|] eqn:Hc.
  - intros [= <-]. rewrite <- (Qplus_0_l 0).
    apply Qplus_le_compat; [done|]. destruct Hitem as (_ & Hcost & _). eauto.
  - repeat match goal with
    | |- context [String.eqb model ?name] => destruct (String.eqb model name)
    end; simpl;
    first [ by intros [= <-]
          | apply add_token_cost_nonnegative; done ].
Qed.

Lemma cost_loop_nonnegative (model : string) (data : list record) :
  Forall nonnegative_record data →
  ∀ total_cost t, (0 <= total_cost)%Q →
    cost_loop model total_cost data = Ok t → (0 <= t)%Q.
Proof.
  induction 1 as [|item data Hitem _ IH]; intros total_cost t Ht; simpl.
  - by intros [= <-].
  - destruct (cost_step model total_cost item) as [t'|] eqn:Hstep; [|done].
    simpl. apply IH. by eapply cost_step_nonnegative.
Qed.

Lemma time_loop_nonnegative (data : list record) :
  Forall nonnegative_record data →
  ∀ total_time, (0 <= total_time)%Q → (0 <= time_loop total_time data)%Q.
Proof.
  unfold time_loop.
  induction 1 as [|item data Hitem _ IH]; intros total_time Ht; simpl; [done|].
  apply IH. rewrite <- (Qplus_0_l 0). apply Qplus_le_compat; [done|].
  by destruct Hitem as [? _].
Qed.

Lemma div_len_nonnegative {A : Type} (a : Q) (l : list A) :
  (0 <= a)%Q → (0 <= a / len l)%Q.
Proof.
  intros Ha. apply Qmult_le_0_compat; [done|].
  apply Qinv_le_0_compat. unfold len, Qle. simpl. lia.
Qed.

(** X13. When no record of the file has a negative time, cost or token count,
    the average cost and the average time of the score are not negative. *)
Theorem averages_nonnegative (data : list record) (model_name : string)
    (acc : npfloat) (count : nat) (avg_cost avg_time : Q) :
  Forall nonnegative_record data →
  get_score_from_file data model_name = Ok (acc, count, avg_cost, avg_time) →
  (0 <= avg_cost)%Q ∧ (0 <= avg_time)%Q.
Proof.
  intros Hall H.
  pose proof (get_score_from_file_nonempty _ _ _ H) as Hne.
  apply deduplicate_data_nonempty in Hne.
  assert (Forall nonnegative_record (deduplicate_data data)) as Hdedup.
  { rewrite Forall_forall in Hall |- *. intros item Hin. apply Hall.
    eapply elem_of_sublist; [done | apply deduplicate_data_sublist]. }
  revert H. unfold get_score_from_file.
  destruct (cost_loop model_name 0 (deduplicate_data data)) as [t|] eqn:Hloop.
  - rewrite (calculate_cost_nonempty _ _ t),
      calculate_time_from_data_nonempty by done.
    cbn [bind]. intros [= _ _ <- <-]. split; apply div_len_nonnegative.
    + apply (cost_loop_nonnegative model_name _ Hdedup 0%Q t);
        [apply Qle_refl | done].
    + apply time_loop_nonnegative; [done | apply Qle_refl].
  - unfold calculate_cost_from_token_usage. by rewrite Hloop.
Qed.

Lemma averages_nonnegative_witness :
  (0 <= (0 + (inject_Z 100 * 2.5 / 1000000 + inject_Z 50 * 10 / 1000000)) / 1)%Q
  ∧ (0 <= (0 + 3) / 1)%Q.
Proof.
  apply (averages_nonnegative [token_record] "gpt-4o" (Num (0 / 1 * 100)) 1%nat).
  - apply Forall_cons. split; [|constructor].
    split; [discriminate|]. split; [discriminate|].
    intros u [= <-]. simpl. lia.
  - reflexivity.
Defined.

End ExtractorMore.

(** * The loops of [create_results_table] *)

Section DriverProps.
Import PyStr MakeTable Utils Driver.
Local Open Scope list_scope.

Variable round : Q → Z → Q.

(** *** Loops *)

Lemma for_each_invariant {A S : Type} (I : S → Prop)
    (body : S → A → result S) (l : list A) :
  (∀ s x s', x ∈ l → I s → body s x = Ok s' → I s') →
  ∀ s s', I s → for_each body l s = Ok s' → I s'.
Proof.
  induction l as [|x l IH]; intros Hbody s s' Hs; simpl.
  - by intros [= <-].
  - destruct (body s x) as [s1|] eqn:Hx; [|done]. simpl.
    apply IH.
    + intros s0 y s0' Hy. apply Hbody. by apply elem_of_cons; right.
    + eapply Hbody; [|done|done]. by apply elem_of_cons; left.
Qed.

Lemma for_each_Err {A S : Type} (body : S → A → result S) (l : list A)
    (s : S) (e : pyerr) :
  for_each body l s = Err e → ∃ x s0, x ∈ l ∧ body s0 x = Err e.
Proof.
  revert s. induction l as [|x l IH]; intros s; simpl; [done|].
  destruct (body s x) as [s1|e'] eqn:Hx; simpl.
  - intros (y & s0 & Hy & H)%IH. exists y, s0. split; [|done].
    by apply elem_of_cons; right.
  - intros [= ->]. exists x, s. split; [|done]. by apply elem_of_cons; left.
Qed.

(** A loop whose body only appends: every iteration has returned, and
    what it returned is a prefix of the final list. *)
Lemma for_each_prefix {A B : Type} (body : list B → A → result (list B))
    (l : list A) :
  (∀ s x s', body s x = Ok s' → s `prefix_of` s') →
  ∀ s s', for_each body l s = Ok s' →
    s `prefix_of` s'
    ∧ ∀ x, x ∈ l → ∃ s0 s1, body s0 x = Ok s1 ∧ s1 `prefix_of` s'.
Proof.
  intros Hbody. induction l as [|x l IH]; intros s s'; simpl.
  - intros [= <-]. split; [done|]. by intros x Hx%elem_of_nil.
  - destruct (body s x) as [s1|] eqn:Hx; [|done]. simpl.
    intros [Hpre Hall]%IH. split.
    + etrans; [by eapply Hbody | done].
    + intros y [->|Hy]%elem_of_cons; [|by apply Hall].
      by exists s, s1.
Qed.

(** *** The body of the innermost loop *)

Lemma parse_filename_cases (filename : string) :
  parse_filename filename = undecodable
  ∨ ∃ model dataset split method,
      parse_filename filename
      = (Some model, Some dataset, Some split, Some method).
Proof.
  unfold parse_filename.
  destruct (model_stage _) as [[model rem]|]; [|by left].
  destruct (is_empty model); [by left|].
  destruct (dataset_stage rem) as [[ds rem']|]; [|by left].
  destruct (is_empty ds); [by left|].
  destruct (split_stage rem') as [[sp rem'']|]; [|by left].
  destruct (is_empty sp); [by left|]. right. by eexists _, _, _, _.
Qed.

(** A name that is not skipped decodes to a model of the table, the data
    set of the directory, the split [test_hard] and some method. *)
Lemma not_skipped (filename dataset : string) :
  skipped (parse_filename filename) dataset = false →
  ∃ model method,
    parse_filename filename
    = (Some model, Some dataset, Some "test_hard", Some method)
    ∧ model ∈ model_names.
Proof.
  destruct (parse_filename_cases filename) as [->|(m & d & sp & me & ->)];
    [done|].
  unfold skipped.
  rewrite !orb_false_iff, !negb_false_iff, !bool_decide_eq_true.
  intros [[Hm [= ->]] [= ->]]. by exists m, me.
Qed.

Lemma file_row_not_qualifies (run_id : Z) (dataset : string) (e : dir_entry) :
  qualifies dataset e = false → file_row round run_id dataset e = Ok None.
Proof.
  unfold qualifies, file_row.
  destruct (entry_is_file e); [|done].
  destruct (endswith (entry_name e) ".json"); [|done]. simpl.
  destruct (parse_filename (entry_name e)) as [[[pm pd] ps] me].
  rewrite negb_false_iff. by intros ->.
Qed.

Lemma file_row_qualifies (run_id : Z) (dataset : string) (e : dir_entry) :
  qualifies dataset e = true →
  ∃ model method,
    parse_filename (entry_name e)
    = (Some model, Some dataset, Some "test_hard", Some method)
    ∧ model ∈ model_names
    ∧ file_row round run_id dataset e
      = bind (get_score_from_file (entry_data e) model)
             (λ score, Ok (Some (row_for round run_id dataset model method score))).
Proof.
  unfold qualifies, file_row.
  rewrite !andb_true_iff, negb_true_iff. intros [[-> ->] Hskip]. simpl.
  destruct (not_skipped _ _ Hskip) as (model & method & Hp & Hin).
  exists model, method. split; [done|]. split; [done|].
  rewrite Hp in Hskip |- *. rewrite Hskip.
  destruct (get_score_from_file _ _) as [[[[acc n] c] t]|]; done.
Qed.

(** The body appends at most one row. *)
Lemma append_row_prefix (run_id : Z) (dataset : string) (s : list row)
    (e : dir_entry) (s' : list row) :
  append_row round run_id dataset s e = Ok s' → s `prefix_of` s'.
Proof.
  unfold append_row. destruct (file_row _ _ _ _) as [[r|]|]; simpl; [..|done];
    intros [= <-]; [by apply prefix_app_r | done].
Qed.

Lemma dataset_loop_prefix (run_id : Z) (run_dir : gmap string (list dir_entry))
    (s : list row) (dataset : string) (s' : list row) :
  dataset_loop round run_id run_dir s dataset = Ok s' → s `prefix_of` s'.
Proof.
  unfold dataset_loop. destruct (run_dir !! dataset) as [listing|].
  - intros H.
    by apply (for_each_prefix _ _ (append_row_prefix run_id dataset)) in H
      as [H _].
  - by intros [= <-].
Qed.

Lemma run_loop_prefix (fs : gmap Z (gmap string (list dir_entry)))
    (s : list row) (run_id : Z) (s' : list row) :
  run_loop round fs s run_id = Ok s' → s `prefix_of` s'.
Proof.
  unfold run_loop. destruct (fs !! run_id) as [run_dir|].
  - intros H.
    by apply (for_each_prefix _ _ (dataset_loop_prefix run_id run_dir)) in H
      as [H _].
  - by intros [= <-].
Qed.

(** *** Where the rows come from *)

Lemma append_row_sound (fs : gmap Z (gmap string (list dir_entry)))
    (run_id : Z) (dataset : string) (e : dir_entry) (s s' : list row) :
  visited fs run_id dataset e →
  Forall (row_of_file round fs) s →
  append_row round run_id dataset s e = Ok s' →
  Forall (row_of_file round fs) s'.
Proof.
  intros Hv Hs. unfold append_row.
  destruct (qualifies dataset e) eqn:Hq.
  - destruct (file_row_qualifies run_id dataset e Hq)
      as (model & method & Hp & Hin & ->).
    destruct (get_score_from_file _ _) as [score|] eqn:Hscore; [|done].
    simpl. intros [= <-]. apply Forall_app. split; [done|].
    apply Forall_singleton. exists e, model, method, score.
    by destruct score as [[[acc n] c] t].
  - rewrite file_row_not_qualifies by done. simpl. by intros [= <-].
Qed.

(** X14. Every row of the table is the row of a result file: of a regular
    file with the extension [.json], found in a directory
    [run-<run_id>/<dataset>] for a run id of 0, 1 or 2 and a data set of
    the list, whose name decodes to one of the three models of the
    table, that data set and the split [test_hard]; the row has the
    display name of the decoded method, the model name with underscores,
    and the rounded score of the file. *)
Theorem rows_come_from_result_files
    (fs : gmap Z (gmap string (list dir_entry))) (rows : list row) :
  create_results_table_rows round fs = Ok rows →
  Forall (row_of_file round fs) rows.
Proof.
  unfold create_results_table_rows.
  apply (for_each_invariant (Forall (row_of_file round fs))); [|constructor].
  intros s run_id s' Hrun Hs. unfold run_loop.
  destruct (fs !! run_id) as [run_dir|] eqn:Hfs; [|by intros [= <-]].
  apply (for_each_invariant (Forall (row_of_file round fs))); [|done].
  clear s s' Hs. intros s dataset s' Hds Hs. unfold dataset_loop.
  destruct (run_dir !! dataset) as [listing|] eqn:Hdir; [|by intros [= <-]].
  apply (for_each_invariant (Forall (row_of_file round fs))); [|done].
  clear s s' Hs. intros s e s' He Hs.
  apply append_row_sound; [|done].
  split; [done|]. split; [done|]. by exists run_dir, listing.
Qed.

(** *** Which files have a row *)

Lemma visited_append_row (fs : gmap Z (gmap string (list dir_entry)))
    (rows : list row) (run_id : Z) (dataset : string) (e : dir_entry) :
  create_results_table_rows round fs = Ok rows →
  visited fs run_id dataset e →
  ∃ s0 s1, append_row round run_id dataset s0 e = Ok s1 ∧ s1 `prefix_of` rows.
Proof.
  intros H (Hrun & Hds & run_dir & listing & Hfs & Hdir & He).
  apply (for_each_prefix _ _ (run_loop_prefix fs)) in H as [_ H].
  destruct (H _ Hrun) as (a0 & a1 & Ha & Hpre1).
  unfold run_loop in Ha. rewrite Hfs in Ha.
  apply (for_each_prefix _ _ (dataset_loop_prefix run_id run_dir)) in Ha
    as [_ Ha].
  destruct (Ha _ Hds) as (b0 & b1 & Hb & Hpre2).
  unfold dataset_loop in Hb. rewrite Hdir in Hb.
  apply (for_each_prefix _ _ (append_row_prefix run_id dataset)) in Hb
    as [_ Hb].
  destruct (Hb _ He) as (c0 & c1 & Hc & Hpre3).
  exists c0, c1. split; [done|]. by repeat (etrans; [done|]).
Qed.

(** X15. When the table is built, every result file of the directories the
    loops go through has its row in it: the score of the file was
    computed and the row with it is among the rows. *)
Theorem result_files_have_rows
    (fs : gmap Z (gmap string (list dir_entry))) (rows : list row)
    (run_id : Z) (dataset : string) (e : dir_entry) :
  create_results_table_rows round fs = Ok rows →
  visited fs run_id dataset e →
  qualifies dataset e = true →
  ∃ model method score,
    parse_filename (entry_name e)
    = (Some model, Some dataset, Some "test_hard", Some method)
    ∧ get_score_from_file (entry_data e) model = Ok score
    ∧ row_for round run_id dataset model method score ∈ rows.
Proof.
  intros H Hv Hq.
  destruct (visited_append_row _ _ _ _ _ H Hv) as (s0 & s1 & Hs & Hpre).
  destruct (file_row_qualifies run_id dataset e Hq)
    as (model & method & Hp & _ & Hrow).
  unfold append_row in Hs. rewrite Hrow in Hs.
  destruct (get_score_from_file _ _) as [score|] eqn:Hscore; [|done].
  simpl in Hs. injection Hs as <-.
  exists model, method, score. split; [done|]. split; [done|].
  destruct Hpre as [k ->]. rewrite !elem_of_app, list_elem_of_singleton.
  by left; right.
Qed.

(** *** Errors *)

(** X16. An exception of [create_results_table] is the exception of
    [get_score_from_file] on a result file of a directory the loops go
    through: files that do not qualify are not read. *)
Theorem create_results_table_error_source
    (fs : gmap Z (gmap string (list dir_entry))) (err : pyerr) :
  create_results_table_rows round fs = Err err →
  ∃ run_id dataset e model method,
    visited fs run_id dataset e
    ∧ qualifies dataset e = true
    ∧ parse_filename (entry_name e)
      = (Some model, Some dataset, Some "test_hard", Some method)
    ∧ get_score_from_file (entry_data e) model = Err err.
Proof.
  unfold create_results_table_rows.
  intros (run_id & s0 & Hrun & H)%for_each_Err.
  unfold run_loop in H.
  destruct (fs !! run_id) as [run_dir|] eqn:Hfs; [|done].
  apply for_each_Err in H as (dataset & s1 & Hds & H).
  unfold dataset_loop in H.
  destruct (run_dir !! dataset) as [listing|] eqn:Hdir; [|done].
  apply for_each_Err in H as (e & s2 & He & H).
  unfold append_row in H.
  destruct (qualifies dataset e) eqn:Hq.
  - destruct (file_row_qualifies run_id dataset e Hq)
      as (model & method & Hp & _ & Hrow).
    rewrite Hrow in H.
    destruct (get_score_from_file _ _) as [score|err'] eqn:Hscore; [done|].
    simpl in H. injection H as ->.
    exists run_id, dataset, e, model, method.
    split; [|done]. split; [done|]. split; [done|]. by exists run_dir, listing.
  - by rewrite file_row_not_qualifies in H.
Qed.

(** X17. One result file that cannot be scored, an empty one for instance,
    leaves no table at all: [create_results_table] raises, whatever the
    other files are. *)
Theorem create_results_table_aborts
    (fs : gmap Z (gmap string (list dir_entry)))
    (run_id : Z) (dataset : string) (e : dir_entry)
    (model method : string) (err : pyerr) :
  visited fs run_id dataset e →
  qualifies dataset e = true →
  parse_filename (entry_name e)
  = (Some model, Some dataset, Some "test_hard", Some method) →
  get_score_from_file (entry_data e) model = Err err →
  ∃ err', create_results_table_rows round fs = Err err'.
Proof.
  intros Hv Hq Hp Hscore.
  destruct (create_results_table_rows round fs) as [rows|err'] eqn:H;
    [|by exists err'].
  destruct (visited_append_row _ _ _ _ _ H Hv) as (s0 & s1 & Hs & _).
  destruct (file_row_qualifies run_id dataset e Hq)
    as (model' & method' & Hp' & _ & Hrow).
  rewrite Hp in Hp'. injection Hp' as <- <-.
  unfold append_row in Hs. by rewrite Hrow, Hscore in Hs.
Qed.

End DriverProps.

Section DriverExamples.
Import PyStr MakeTable Utils Driver.
Local Open Scope list_scope.

Lemma undecodable_no_match_witness : no_match "notes.txt".
Proof. apply (undecodable_no_match "notes.txt"). reflexivity. Defined.

(** The sample tree has one row: only its first file qualifies. *)
Lemma sample_tree_rows :
  create_results_table_rows no_rounding sample_tree = Ok sample_rows
  ∧ row_exp_name <$> sample_rows = [Some "CoT"]
  ∧ row_model <$> sample_rows = ["gpt_4o"].
Proof. repeat split. Qed.

Lemma sample_file_visited : visited sample_tree 1 "medqa" sample_file.
Proof.
  split; [by apply (bool_decide_unpack _)|].
  split; [by apply (bool_decide_unpack _)|].
  eexists _, _. split; [reflexivity|]. split; [reflexivity|].
  apply elem_of_cons. by left.
Qed.

Lemma empty_file_visited : visited broken_tree 2 "mmlu" empty_file.
Proof.
  split; [by apply (bool_decide_unpack _)|].
  split; [by apply (bool_decide_unpack _)|].
  eexists _, _. split; [reflexivity|]. split; [reflexivity|].
  apply elem_of_cons. by left.
Qed.

Lemma rows_come_from_result_files_witness :
  Forall (row_of_file no_rounding sample_tree) sample_rows.
Proof.
  apply (rows_come_from_result_files no_rounding sample_tree sample_rows).
  vm_compute. reflexivity.
Defined.

Lemma result_files_have_rows_witness :
  ∃ model method score,
    parse_filename (entry_name sample_file)
    = (Some model, Some "medqa", Some "test_hard", Some method)
    ∧ get_score_from_file (entry_data sample_file) model = Ok score
    ∧ row_for no_rounding 1 "medqa" model method score ∈ sample_rows.
Proof.
  apply (result_files_have_rows no_rounding sample_tree sample_rows 1 "medqa"
           sample_file).
  - vm_compute. reflexivity.
  - exact sample_file_visited.
  - reflexivity.
Defined.

Lemma create_results_table_error_source_witness :
  ∃ run_id dataset e model method,
    visited broken_tree run_id dataset e
    ∧ qualifies dataset e = true
    ∧ parse_filename (entry_name e)
      = (Some model, Some dataset, Some "test_hard", Some method)
    ∧ get_score_from_file (entry_data e) model = Err ZeroDivisionError.
Proof.
  apply (create_results_table_error_source no_rounding broken_tree).
  vm_compute. reflexivity.
Defined.

Lemma create_results_table_aborts_witness :
  ∃ err', create_results_table_rows no_rounding broken_tree = Err err'.
Proof.
  apply (create_results_table_aborts no_rounding broken_tree 2 "mmlu"
           empty_file "o3-mini" "zero_shot" ZeroDivisionError).
  - exact empty_file_visited.
  - reflexivity.
  - reflexivity.
  - reflexivity.
Defined.

End DriverExamples.

(** * The extractor on records with missing keys *)

Section RawExtractor.
Import Utils Driver.
Local Open Scope list_scope.

(** *** The four loops *)







(** *** The outcome *)


(** The keys one by one: each missing key of a record that is read gives
    the [KeyError] of that key, [realidx] first; a record with all its
    keys is scored. *)
Lemma raw_missing_keys :
  Raw.get_score_from_file
    [raw_token_record ["realidx"; "predicted_answer"; "time_elapsed"]] "gpt-4o"
  = Err (KeyError "realidx")
  ∧ Raw.get_score_from_file
      [raw_token_record ["predicted_answer"; "token_usage"; "time_elapsed"]]
      "gpt-4o"
    = Err (KeyError "predicted_answer")
  ∧ Raw.get_score_from_file
      [raw_token_record ["token_usage"; "time_elapsed"]] "gpt-4o"
    = Err (KeyError "token_usage")
  ∧ Raw.get_score_from_file
      [raw_token_record ["prompt_tokens"; "completion_tokens"]] "gpt-4o"
    = Err (KeyError "prompt_tokens")
  ∧ Raw.get_score_from_file
      [raw_token_record ["completion_tokens"; "time_elapsed"]] "gpt-4o"
    = Err (KeyError "completion_tokens")
  ∧ Raw.get_score_from_file [raw_token_record ["time_elapsed"]] "gpt-4o"
    = Err (KeyError "time_elapsed")
  ∧ Raw.get_score_from_file [raw_token_record ["token_usage"]] "gpt-4"
    = Ok (Num (0 / 1 * 100), 1%nat, (0 / 1)%Q, ((0 + 3) / 1)%Q)
  ∧ Raw.get_score_from_file [raw_token_record []] "gpt-4o"
    = Utils.get_score_from_file [token_record] "gpt-4o".
Proof. repeat split. Qed.

(** *** Records with all their keys *)

Lemma raw_dedup_loop_of_record (data : list record) :
  ∀ seen out,
    for_each Raw.dedup_step (Raw.of_record <$> data)
             (seen, Raw.of_record <$> out)
    = Ok ((foldl dedup_step (seen, out) data).1,
          Raw.of_record <$> (foldl dedup_step (seen, out) data).2).
Proof.
  induction data as [|item data IH]; intros seen out; [done|].
  cbn [fmap list_fmap for_each foldl]. unfold Raw.dedup_step at 1.
  cbn [Raw.realidx Raw.of_record getitem bind fst snd].
  unfold dedup_step at 2 4. cbn [fst snd].
  case_decide; [apply IH|].
  rewrite <- IH. by rewrite fmap_app.
Qed.

Lemma raw_answers_loop_of_record (l : list record) :
  ∀ answers,
    for_each Raw.answers_step (Raw.of_record <$> l) answers
    = Ok (answers ++ answers_of l).
Proof.
  induction l as [|item l IH]; intros answers; simpl.
  - by rewrite app_nil_r.
  - rewrite IH. by rewrite <- app_assoc.
Qed.

Lemma raw_cost_step_of_record (model : string) (total_cost : Q)
    (item : record) :
  Raw.cost_step model total_cost (Raw.of_record item)
  = cost_step model total_cost item.
Proof.
  assert (∀ p_in p_out,
    Raw.add_token_cost total_cost (Raw.of_record item) p_in p_out
    = add_token_cost total_cost item p_in p_out) as Hadd.
  { intros p_in p_out. unfold Raw.add_token_cost, add_token_cost. simpl.
    by destruct (token_usage item). }
  unfold Raw.cost_step, cost_step. simpl. by rewrite !Hadd.
Qed.

Lemma raw_cost_loop_of_record (model : string) (l : list record) :
  ∀ total_cost,
    for_each (Raw.cost_step model) (Raw.of_record <$> l) total_cost
    = cost_loop model total_cost l.
Proof.
  induction l as [|item l IH]; intros total_cost; [done|].
  cbn [fmap list_fmap for_each cost_loop].
  rewrite raw_cost_step_of_record.
  destruct (cost_step model total_cost item); [apply IH | done].
Qed.

Lemma raw_time_loop_of_record (l : list record) :
  ∀ total_time,
    for_each Raw.time_step (Raw.of_record <$> l) total_time
    = Ok (time_loop total_time l).
Proof.
  induction l as [|item l IH]; intros total_time; [done|]. simpl. apply IH.
Qed.

(** On a file whose records have all the keys that are read with
    [item[...]], the functions of [Raw] are the functions of [Utils]. *)
Lemma raw_get_score_from_file_of_record (data : list record)
    (model_name : string) :
  Raw.get_score_from_file (Raw.of_record <$> data) model_name
  = get_score_from_file data model_name.
Proof.
  unfold Raw.get_score_from_file, Raw.deduplicate_data, get_score_from_file.
  rewrite (raw_dedup_loop_of_record data ∅ []). cbn [bind snd].
  fold (deduplicate_data data).
  rewrite raw_answers_loop_of_record. cbn [bind app].
  unfold Raw.calculate_cost_from_token_usage, calculate_cost_from_token_usage,
    Raw.calculate_time_from_data, calculate_time_from_data, len.
  rewrite raw_cost_loop_of_record, raw_time_loop_of_record, !length_fmap.
  done.
Qed.

End RawExtractor.
